(** * diagnnose: initial LSTM states and the Linzen agreement corpora

    A shallow embedding of

    - [diagnnose/activations/init_states.py] (class [InitStates]) and
    - [diagnnose/downstream/tasks/linzen.py] (class [LinzenDownstream]),

    together with the properties of these two modules that the project
    documentation states.  Python values are embedded as follows: [int] as
    [Z], [str] as the list of its code points, [list] as [list], a [dict]
    that is only looked up and assigned as a [gmap], a [dict] that is also
    iterated as an insertion-ordered association list, and a call that may
    raise as a computation in the [res] monad. *)

From Stdlib Require Import ZArith NArith Ascii String List Lia.
From stdpp Require Import base option list gmap strings pretty.

Local Open Scope Z_scope.

(** ** The Python runtime fragment used by both modules *)

Module Py.

(** Built-in exceptions that the modelled code can raise. *)
Inductive exn : Type :=
| AssertionError | FileNotFoundError | IndexError | KeyError
| RuntimeError | StopIteration | TypeError | ValueError.

Inductive res (A : Type) : Type :=
| Ok (a : A)
| Raise (e : exn).
Arguments Ok {A} a.
Arguments Raise {A} e.

#[global] Instance res_ret : MRet res := fun A a => Ok a.
#[global] Instance res_bind : MBind res := fun A B f m =>
  match m with Ok a => f a | Raise e => Raise e end.
#[global] Instance res_fmap : FMap res := fun A B f m =>
  match m with Ok a => Ok (f a) | Raise e => Raise e end.

#[global] Instance exn_eq_dec : EqDecision exn.
Proof. solve_decision. Defined.
#[global] Instance res_eq_dec {A : Type} `{EqDecision A} : EqDecision (res A).
Proof. solve_decision. Defined.

(** [assert c]: raises [AssertionError] when [c] is false. *)
Definition assert (c : bool) : res unit :=
  if c then Ok tt else Raise AssertionError.

(** [for x in l: s = body(s, x)], stopping at the first exception. *)
Fixpoint for_fold {A S : Type} (l : list A) (body : S -> A -> res S) (s : S)
  : res S :=
  match l with
  | [] => Ok s
  | x :: l' => match body s x with
               | Ok s' => for_fold l' body s'
               | Raise e => Raise e
               end
  end.

(** [for x in l: body(x)] for a body without result. *)
Definition for_each {A : Type} (l : list A) (body : A -> res unit) : res unit :=
  for_fold l (fun _ x => body x) tt.

(** [range(n)] *)
Definition range (n : Z) : list Z := seqZ 0 n.

(** [[f(x) for x in l]] when [f] may raise. *)
Fixpoint list_comp {A B : Type} (f : A -> res B) (l : list A) : res (list B) :=
  match l with
  | [] => Ok []
  | x :: l' => match f x with
               | Ok y => match list_comp f l' with
                         | Ok ys => Ok (y :: ys)
                         | Raise e => Raise e
                         end
               | Raise e => Raise e
               end
  end.

(** A slice bound [i] of a sequence of length [n], as [PySlice_AdjustIndices]
    computes it for step 1: negative bounds count from the end, and the
    result is clamped to [0..n]. *)
Definition adjust_index (n i : Z) : Z :=
  if i <? 0 then Z.max 0 (i + n) else Z.min i n.

(** [l[start:stop]]; [None] is an omitted bound. *)
Definition slice {A : Type} (l : list A) (start stop : option Z) : list A :=
  let n := Z.of_nat (length l) in
  let lo := match start with Some i => adjust_index n i | None => 0 end in
  let hi := match stop with Some i => adjust_index n i | None => n end in
  take (Z.to_nat (hi - lo)) (drop (Z.to_nat lo) l).

(** *** Insertion-ordered dictionaries

    A [dict] that the code iterates ([d.items()]) is embedded as the list of
    its items in insertion order; the keys of a dictionary are pairwise
    distinct, which [oset] preserves. *)

Section odict.
Context {K V : Type} `{EqDecision K}.

(** [d.get(k)] *)
Fixpoint oget (k : K) (d : list (K * V)) : option V :=
  match d with
  | [] => None
  | (k', v) :: d' => if decide (k = k') then Some v else oget k d'
  end.

(** [d[k] = v]: an existing key keeps its position, a new key goes last. *)
Fixpoint oset (k : K) (v : V) (d : list (K * V)) : list (K * V) :=
  match d with
  | [] => [(k, v)]
  | (k', v') :: d' =>
      if decide (k = k') then (k', v) :: d' else (k', v') :: oset k v d'
  end.

(** [d[k]] *)
Definition getitem (k : K) (d : list (K * V)) : res V :=
  match oget k d with Some v => Ok v | None => Raise KeyError end.

End odict.

(** *** Strings

    A [str] is the list of its code points, so that characters beyond
    Latin-1 are representable; [lit] embeds a literal of the source. *)

Abbreviation str := (list N).

Definition lit (x : string) : str := N_of_ascii <$> list_ascii_of_string x.

(** [len(x)] *)
Definition len {A : Type} (l : list A) : Z := Z.of_nat (length l).

(** [str(n)] for an [int]. *)
Definition str_of_int (n : Z) : str := lit (pretty n).

(** [ch.isspace()]: the code points Python treats as whitespace. *)
Definition isspace (ch : N) : bool :=
  (((9 <=? ch) && (ch <=? 13)) || ((28 <=? ch) && (ch <=? 32))
   || (ch =? 133) || (ch =? 160) || (ch =? 5760)
   || ((8192 <=? ch) && (ch <=? 8202))
   || (ch =? 8232) || (ch =? 8233) || (ch =? 8239) || (ch =? 8287)
   || (ch =? 12288))%N.

(** [x.lstrip()] *)
Fixpoint lstrip (x : str) : str :=
  match x with
  | ch :: x' => if isspace ch then lstrip x' else x
  | [] => []
  end.

(** [x.strip()] *)
Definition strip (x : str) : str := reverse (lstrip (reverse (lstrip x))).

(** [x.split()]: the maximal runs of non-whitespace, [cur] being the run
    under construction. *)
Fixpoint split_go (cur x : str) : list str :=
  match x with
  | [] => match cur with [] => [] | _ => [cur] end
  | ch :: x' =>
      if isspace ch
      then match cur with [] => split_go [] x' | _ => cur :: split_go [] x' end
      else split_go (cur ++ [ch]) x'
  end.

Definition split (x : str) : list str := split_go [] x.

(** [x.split(sep)] for a separator [sep] of one character: every occurrence
    separates, and empty fields are kept. *)
Fixpoint split_on_go (sep : N) (cur x : str) : list str :=
  match x with
  | [] => [cur]
  | ch :: x' =>
      if (ch =? sep)%N then cur :: split_on_go sep [] x'
      else split_on_go sep (cur ++ [ch]) x'
  end.

Definition split_on (sep : N) (x : str) : list str := split_on_go sep [] x.

(** [sep.join(l)] *)
Fixpoint join (sep : str) (l : list str) : str :=
  match l with
  | [] => []
  | [x] => x
  | x :: l' => x ++ sep ++ join sep l'
  end.

(** The value of a decimal digit. *)
Definition digit_val (ch : N) : option Z :=
  if ((48 <=? ch) && (ch <=? 57))%N then Some (Z.of_N (ch - 48)) else None.

(** Digits of a decimal literal after the sign: a digit, then digits each
    optionally preceded by one underscore. *)
Fixpoint parse_digits (acc : Z) (x : str) : option Z :=
  match x with
  | [] => None
  | ch :: x' =>
      match digit_val ch with
      | None => None
      | Some d =>
          let acc' := 10 * acc + d in
          match x' with
          | [] => Some acc'
          | ch' :: x'' =>
              if (ch' =? 95)%N then parse_digits acc' x''
              else parse_digits acc' x'
          end
      end
  end.

(** [Py_ISSPACE]: the whitespace of the C locale, which is what the parser
    of integer literals skips. *)
Definition ascii_isspace (ch : N) : bool :=
  (((9 <=? ch) && (ch <=? 13)) || (ch =? 32))%N.

Fixpoint lstrip_ascii (x : str) : str :=
  match x with
  | ch :: x' => if ascii_isspace ch then lstrip_ascii x' else x
  | [] => []
  end.

(** The code point of the digit zero in every decimal digit system of the
    Unicode database (version 14.0, that of CPython 3.11); the ten digits
    of a system are consecutive code points. *)
Definition decimal_zeros : list N :=
  [48; 1632; 1776; 1984; 2406; 2534; 2662; 2790; 2918; 3046; 3174; 3302;
   3430; 3558; 3664; 3792; 3872; 4160; 4240; 6112; 6160; 6470; 6608; 6784;
   6800; 6992; 7088; 7232; 7248; 42528; 43216; 43264; 43472; 43504; 43600;
   44016; 65296; 66720; 68912; 69734; 69872; 69942; 70096; 70384; 70736;
   70864; 71248; 71360; 71472; 71904; 72016; 72784; 73040; 73120; 92768;
   92864; 93008; 120782; 120792; 120802; 120812; 120822; 123200; 123632;
   125264; 130032]%N.

(** [Py_UNICODE_TODECIMAL] *)
Definition to_decimal (ch : N) : option N :=
  (fun z => ch - z)%N
    <$> List.find (fun z => (z <=? ch) && (ch <=? z + 9))%N decimal_zeros.

(** [_PyUnicode_TransformDecimalAndSpaceToASCII], character by character: a
    code point below 127 is kept, a whitespace character beyond becomes a
    space, a decimal digit beyond becomes its ASCII digit, anything else a
    question mark (where CPython also cuts the string, which no parse
    survives either way). *)
Definition transform_decimal_and_space (ch : N) : N :=
  if (ch <? 127)%N then ch
  else if isspace ch then 32%N
  else match to_decimal ch with
       | Some d => (48 + d)%N
       | None => 63%N
       end.

(** [int(x)] for a [str] in base 10.  Decimal digits of any script count
    as digits.  Whitespace around the literal is ignored: the C whitespace
    and the Unicode whitespace beyond ASCII, but not the separators
    U+001C to U+001F, which [str.strip] removes and [int] rejects.  A sign
    may precede the digits; anything else is a [ValueError]. *)
Definition int (x : str) : res Z :=
  let ascii := transform_decimal_and_space <$> x in
  let parsed :=
    match reverse (lstrip_ascii (reverse (lstrip_ascii ascii))) with
    | 43%N :: ds => parse_digits 0 ds
    | 45%N :: ds => Z.opp <$> parse_digits 0 ds
    | ds => parse_digits 0 ds
    end in
  match parsed with Some n => Ok n | None => Raise ValueError end.

(** [os.path.join(a, b)] on POSIX. *)
Definition path_join (a b : str) : str :=
  match b with
  | 47%N :: _ => b
  | _ => match a with
         | [] => b
         | _ => if bool_decide (last a = Some 47%N) then a ++ b
                else a ++ lit "/" ++ b
         end
  end.

(** *** Files

    A file system maps a path to the lines of the text file there (each
    line as iteration over the open file yields it, newline included), or
    to [None] where no file exists. *)
Abbreviation filesystem := (str -> option (list str)).

(** [open(path)] followed by reading the lines. *)
Definition open (fs : filesystem) (path : str) : res (list str) :=
  match fs path with Some ls => Ok ls | None => Raise FileNotFoundError end.

(** [next(f)] on the remaining lines: the line consumed and the rest. *)
Definition next (ls : list str) : res (str * list str) :=
  match ls with
  | l :: ls' => Ok (l, ls')
  | [] => Raise StopIteration
  end.

End Py.

(** ** [diagnnose/activations/init_states.py] *)

Module InitStates.
Import Py.

(** [SizeDict] ([diagnnose.typedefs.models]): for each layer number the
    sizes of that layer, [sizes[layer]["h"]] and [sizes[layer]["c"]].  The
    outer dictionary is iterated by [_validate], so it is insertion-ordered. *)
Record LayerSize : Type := { h : Z; c : Z }.
Abbreviation SizeDict := (list (Z * LayerSize)).

Section InitStates.
(** Tensor elements are torch floats.  This module only writes the constant
    [0.0] and copies elements, so the element type is left open. *)
Context {scalar : Type} (zero : scalar).

(** A torch tensor: its shape and its elements in row-major order. *)
Record Tensor : Type := { shape : list Z; data : list scalar }.

(** [ActivationTensors]: a dictionary from [(layer, name)] to a tensor. *)
Abbreviation ActivationTensors := (gmap (Z * string) Tensor).

(** The largest number of elements of a tensor that the allocator of the
    machine provides; a request beyond it fails with a [RuntimeError]. *)
Context (max_numel : Z).

(** [load_pickle(path)]: the structure persisted at [path]. *)
Context (load_pickle : string -> res ActivationTensors).

Definition numel (shp : list Z) : Z := foldr Z.mul 1 shp.

Definition zero_tensor (shp : list Z) : Tensor :=
  {| shape := shp; data := replicate (Z.to_nat (numel shp)) zero |}.

(** Dimensions and counts are signed 64-bit integers in torch. *)
Definition is_int64 (n : Z) : bool := (- 2 ^ 63 <=? n) && (n <? 2 ^ 63).

(** The number of elements a new tensor can have: what the allocator
    provides, and never more than 64 bits count. *)
Definition capacity : Z := Z.min max_numel (2 ^ 63 - 1).

(** [torch.zeros((d0, d1))].  A dimension that is no 64-bit integer is
    refused when the tuple is read ([TypeError]); a negative dimension and
    a number of elements beyond [capacity] are refused with a
    [RuntimeError]. *)
Definition torch_zeros (shp : Z * Z) : res Tensor :=
  if negb (is_int64 shp.1 && is_int64 shp.2) then Raise TypeError
  else if (shp.1 <? 0) || (shp.2 <? 0) then Raise RuntimeError
  else if capacity <? shp.1 * shp.2 then Raise RuntimeError
  else Ok (zero_tensor [shp.1; shp.2]).

(** [t.size(0)]; a tensor without dimensions has no dimension 0. *)
Definition size0 (t : Tensor) : res Z :=
  match shape t with
  | d :: _ => Ok d
  | [] => Raise IndexError
  end.

(** [t.unsqueeze(0)] *)
Definition unsqueeze0 (t : Tensor) : Tensor :=
  {| shape := 1 :: shape t; data := data t |}.

(** The [n] rows of [w] elements each of a row-major element list. *)
Fixpoint rows (n w : nat) (l : list scalar) : list (list scalar) :=
  match n with
  | O => []
  | S n' => take w l :: rows n' w (drop w l)
  end.

(** [torch.repeat_interleave(t, repeats, dim=0)]: every slice along the
    first dimension is repeated [repeats] times in place.  A count that is
    no 64-bit integer, a negative count and a result of more than
    [capacity] elements are refused with a [RuntimeError]. *)
Definition repeat_interleave0 (t : Tensor) (repeats : Z) : res Tensor :=
  match shape t with
  | [] => Raise IndexError
  | d :: rest =>
      if negb (is_int64 repeats) || (repeats <? 0) then Raise RuntimeError
      else if negb (is_int64 (d * repeats))
              || (capacity <? numel (d * repeats :: rest))
      then Raise RuntimeError
      else Ok {| shape := d * repeats :: rest;
                 data := concat ((fun r => concat (replicate (Z.to_nat repeats) r))
                                   <$> rows (Z.to_nat d) (Z.to_nat (numel rest)) (data t)) |}
  end.

(** [init_states[key]] *)
Definition getstate (key : Z * string) (st : ActivationTensors) : res Tensor :=
  match st !! key with Some t => Ok t | None => Raise KeyError end.

Record InitStates : Type := {
  sizes : SizeDict;
  num_layers : Z;
  init_states_path : option string
}.

(** [InitStates.__init__] *)
Definition init (sizes : SizeDict) (init_states_path : option string)
  : InitStates :=
  {| sizes := sizes;
     num_layers := Z.of_nat (length sizes);
     init_states_path := init_states_path |}.

Definition _create_zero_state (size batch_size : Z) : res Tensor :=
  torch_zeros (batch_size, size).

Definition create_zero_state_body (self : InitStates) (batch_size : Z)
    (init_states : ActivationTensors) (layer : Z) : res ActivationTensors :=
  sz ← getitem layer (sizes self);
  cx ← _create_zero_state (c sz) batch_size;
  let init_states := <[(layer, "cx"%string) := cx]> init_states in
  sz ← getitem layer (sizes self);
  hx ← _create_zero_state (c sz) batch_size;
  Ok (<[(layer, "hx"%string) := hx]> init_states).

Definition create_zero_state (self : InitStates) (batch_size : Z)
  : res ActivationTensors :=
  for_fold (range (num_layers self)) (create_zero_state_body self batch_size) ∅.

Definition _validate_body (self : InitStates) (init_states : ActivationTensors)
    (item : Z * LayerSize) : res unit :=
  let layer := item.1 in
  _ ← assert (bool_decide (is_Some (init_states !! (layer, "hx"%string)))
              && bool_decide (is_Some (init_states !! (layer, "cx"%string))));
  hx ← getstate (layer, "hx"%string) init_states;
  n ← size0 hx;
  sz ← getitem layer (sizes self);
  _ ← assert (bool_decide (n = h sz));
  cx ← getstate (layer, "cx"%string) init_states;
  n ← size0 cx;
  sz ← getitem layer (sizes self);
  assert (bool_decide (n = c sz)).

Definition _validate (self : InitStates) (init_states : ActivationTensors)
  : res unit :=
  _ ← assert (bool_decide (Z.of_nat (size init_states) = num_layers self));
  for_each (sizes self) (_validate_body self init_states).

Definition _expand_batch_size_body (init_states : ActivationTensors)
    (batch_size : Z) (batch_init_states : ActivationTensors) (layer : Z)
  : res ActivationTensors :=
  cx ← getstate (layer, "cx"%string) init_states;
  cx' ← repeat_interleave0 (unsqueeze0 cx) batch_size;
  let batch_init_states := <[(layer, "cx"%string) := cx']> batch_init_states in
  hx ← getstate (layer, "hx"%string) init_states;
  hx' ← repeat_interleave0 (unsqueeze0 hx) batch_size;
  Ok (<[(layer, "hx"%string) := hx']> batch_init_states).

Definition _expand_batch_size (self : InitStates)
    (init_states : ActivationTensors) (batch_size : Z) : res ActivationTensors :=
  for_fold (range (num_layers self))
           (_expand_batch_size_body init_states batch_size) ∅.

Definition create (self : InitStates) (batch_size : Z) : res ActivationTensors :=
  match init_states_path self with
  | Some path =>
      init_states ← load_pickle path;
      _ ← _validate self init_states;
      _expand_batch_size self init_states batch_size
  | None => create_zero_state self batch_size
  end.

(** *** Vocabulary of the statements about loaded states *)

(** Every stored tensor has a first dimension. *)
Definition has_leading_dim (st : ActivationTensors) : Prop :=
  forall key t, st !! key = Some t -> shape t <> [].

(** The entry of [layer] breaks the contract of [sz]: one of the two
    tensors is missing, or a first dimension is not the declared width. *)
Definition layer_mismatch (st : ActivationTensors) (layer : Z) (sz : LayerSize)
  : Prop :=
  st !! (layer, "hx"%string) = None \/ st !! (layer, "cx"%string) = None \/
  (exists t, st !! (layer, "hx"%string) = Some t /\ head (shape t) <> Some (h sz)) \/
  (exists t, st !! (layer, "cx"%string) = Some t /\ head (shape t) <> Some (c sz)).

(** Some tensor stored under the key of a layer of [sizes] has no
    dimension at all. *)
Definition zero_dim_entry (sizes : SizeDict) (st : ActivationTensors) : Prop :=
  exists layer kind t,
    layer ∈ sizes.*1 /\ (kind = "hx"%string \/ kind = "cx"%string) /\
    st !! (layer, kind) = Some t /\ shape t = [].

(** The dimensions of a tensor are not negative, and its element list has
    the length its shape announces. *)
Definition tensor_wf (t : Tensor) : Prop :=
  Forall (fun d => 0 <= d) (shape t) /\
  length (data t) = Z.to_nat (numel (shape t)).

(** The tensor [t] repeated [n] times along a new first dimension. *)
Definition replicated (n : Z) (t : Tensor) : Tensor :=
  {| shape := n :: shape t; data := concat (replicate (Z.to_nat n) (data t)) |}.

(** The keys [create_zero_state] and [_expand_batch_size] write for the
    layers [0 .. n-1]. *)
Definition state_keys (n : Z) : list (Z * string) :=
  ((fun layer => (layer, "hx"%string)) <$> range n)
  ++ ((fun layer => (layer, "cx"%string)) <$> range n).

End InitStates.

End InitStates.

(** ** [diagnnose/downstream/tasks/linzen.py] *)

Module Linzen.
Import Py.

(** The original corpus structure contains these 18 fields. *)
Record RawItem : Type := {
  sentence : str;
  orig_sentence : str;
  pos_sentence : str;
  subj : str;
  verb : str;
  subj_pos : str;
  has_rel : str;
  has_nsubj : str;
  verb_pos : str;
  subj_index : str;
  verb_index : str;
  n_intervening : str;
  last_intervening : str;
  n_diff_intervening : str;
  distance : str;
  max_depth : str;
  all_nouns : str;
  nouns_up_to_verb : str
}.

(** [RawItem] applied to the unpacked list of fields: the named tuple takes
    exactly its 18 fields, any other number is a [TypeError]. *)
Definition RawItem_new (args : list str) : res RawItem :=
  match args with
  | [a1; a2; a3; a4; a5; a6; a7; a8; a9; a10; a11; a12; a13; a14; a15; a16;
     a17; a18] =>
      Ok {| sentence := a1; orig_sentence := a2; pos_sentence := a3;
            subj := a4; verb := a5; subj_pos := a6; has_rel := a7;
            has_nsubj := a8; verb_pos := a9; subj_index := a10;
            verb_index := a11; n_intervening := a12; last_intervening := a13;
            n_diff_intervening := a14; distance := a15; max_depth := a16;
            all_nouns := a17; nouns_up_to_verb := a18 |}
  | _ => Raise TypeError
  end.

(** A torchtext [Example] as [Example.fromlist([sen, token, wrong_token],
    fields)] receives it: the context tokens, the verb and the verb of the
    opposite number. *)
Record Example : Type := {
  sen : list str;
  token : str;
  wrong_token : str
}.

(** Modelled from the spec: the class [Corpus] of [diagnnose.corpus], whose
    code is not part of these sources.  A corpus is the ordered sequence of
    examples it was built from, with the vocabulary path it was given. *)
Record Corpus : Type := {
  examples : list Example;
  corpus_vocab_path : str
}.

(** [DownstreamCorpora]: attractor count, then condition, then corpus. *)
Abbreviation DownstreamCorpora := (list (str * list (str * Corpus))).

(** The task object; of its attributes the methods read [vocab_path]. *)
Record LinzenDownstream : Type := { vocab_path : str }.

(** [pos_mapping = {"NNS": "P", "NN": "S"}] *)
Definition pos_mapping : gmap str str :=
  <[lit "NN" := lit "S"]> (<[lit "NNS" := lit "P"]> ∅).

Definition item_to_sva_condition (item : RawItem) : res str :=
  let pos_sen := split (pos_sentence item) in
  lo ← int (subj_index item);
  hi ← int (verb_index item);
  let pos_subsen := slice pos_sen (Some (lo - 1)) (Some hi) in
  let sva_condition :=
    join [] ((fun t => default [] (pos_mapping !! t)) <$> pos_subsen) in
  Ok sva_condition.

(** The item of one line of the corpus file,
    [RawItem] applied to the unpacked [line.strip().split("\t")]. *)
Definition parse_row (line : str) : res RawItem :=
  RawItem_new (split_on 9 (strip line)).

(** *** Vocabulary of the statements about a build *)

(** The tags at the positions [a], ..., [b - 1] of a sentence, as far as
    the sentence reaches. *)
Definition index_range {A : Type} (l : list A) (a b : nat) : list A :=
  omap (fun i => l !! i) (seq a (b - a)).

(** The code of one tag as the documentation words it: [NNS] is "P", [NN]
    is "S", any other tag has none. *)
Definition tag_code (t : str) : option N :=
  if decide (t = lit "NNS") then Some 80%N
  else if decide (t = lit "NN") then Some 83%N
  else None.

(** The condition of a tag sequence: the codes of its tags, in order. *)
Definition condition_of_tags (tags : list str) : str := omap tag_code tags.

(** The items of the rows that parse. *)
Definition parsed_rows (rows : list str) : list RawItem :=
  omap (fun row => match parse_row row with
                   | Ok item => Some item
                   | Raise _ => None
                   end) rows.

(** The items of condition [c] among the rows, in the order of the file. *)
Definition retained (c : str) (rows : list str) : list RawItem :=
  filter (fun item => item_to_sva_condition item = Ok c) (parsed_rows rows).

(** A row that [create_raw_corpora] gets past. *)
Definition row_ok (row : str) : Prop :=
  exists item c, parse_row row = Ok item /\ item_to_sva_condition item = Ok c.

(** The distinct elements of a list in the order of their first occurrence:
    the keys of a dictionary that is filled in the order of the list. *)
Definition first_seen (l : list str) : list str :=
  foldl (fun seen x => if bool_decide (x ∈ seen) then seen else seen ++ [x]) [] l.

(** The requested conditions of the rows, in the order of the file. *)
Definition requested_conditions (subtasks : list str) (rows : list str)
  : list str :=
  omap (fun item => match item_to_sva_condition item with
                    | Ok c => if bool_decide (c ∈ subtasks) then Some c else None
                    | Raise _ => None
                    end) (parsed_rows rows).

(** The corpus stored for condition [c] under the attractor key [n]. *)
Definition find_corpus (corpora : DownstreamCorpora) (n c : str) : option Corpus :=
  oget n corpora ≫= oget c.

(** The words of [wiki.vocab] rows tagged [tag] that are in the model
    vocabulary, in the order of the file. *)
Definition tagged (model_vocab : gset str) (tag : str) (rows : list str)
  : list str :=
  omap (fun line => match split (strip line) with
                    | [word; pos; _] =>
                        if bool_decide (word ∈ model_vocab /\ pos = tag)
                        then Some word else None
                    | _ => None
                    end) rows.

Section Linzen.
(** The environment of a build: the file system, the transliteration
    [unidecode.unidecode] and the oracle [inflect.engine().plural_verb]. *)
Context (fs : filesystem) (unidecode : str -> str) (plural_verb : str -> str).

(** The guard of [item_to_example]: some character lies outside Latin-1. *)
Definition needs_unidecode (orig_sentence : str) : bool :=
  negb (forallb (fun ch => (ch <? 256)%N) orig_sentence).

Definition item_to_example (item : RawItem) (verb_inflections : gmap str str)
  : res (option Example) :=
  let orig_sentence := orig_sentence item in
  let orig_sentence :=
    if needs_unidecode orig_sentence then unidecode orig_sentence
    else orig_sentence in
  v ← int (verb_index item);
  let subsen := slice (split orig_sentence) None (Some (v - 1)) in
  let opposite_verb := verb_inflections !! verb item in
  match opposite_verb with
  | None => Ok None
  | Some opposite_verb =>
      Ok (Some {| sen := subsen; token := verb item;
                  wrong_token := opposite_verb |})
  end.

(** [header], and the [fields] that [Corpus.create_fields] derives from it,
    only configure how torchtext tokenises the three columns; they are not
    represented. *)
Definition create_corpus (self : LinzenDownstream) (items : list RawItem)
    (verb_inflections : gmap str str) (items_per_subtask : option Z)
  : res Corpus :=
  examples ← list_comp (fun item => item_to_example item verb_inflections) items;
  let examples := omap id examples in
  let examples :=
    match items_per_subtask with
    | Some n => slice examples None (Some n)
    | None => examples
    end in
  Ok {| examples := examples; corpus_vocab_path := vocab_path self |}.

(** One row of the corpus file. *)
Definition create_raw_corpora_body (subtasks : list str)
    (raw_corpora : list (str * list RawItem)) (line : str)
  : res (list (str * list RawItem)) :=
  item ← parse_row line;
  sva_condition ← item_to_sva_condition item;
  condition ← item_to_sva_condition item;
  if bool_decide (condition ∈ subtasks)
  then Ok (oset sva_condition
                (default [] (oget sva_condition raw_corpora) ++ [item])
                raw_corpora)
  else Ok raw_corpora.

Definition create_raw_corpora (corpus_path : str) (subtasks : list str)
  : res (list (str * list RawItem)) :=
  f ← open fs (path_join corpus_path (lit "agr_50_mostcommon_10K.tsv"));
  '(_, f) ← next f;
  for_fold f (create_raw_corpora_body subtasks) [].

(** One row of [wiki.vocab]. *)
Definition wiki_vocab_body (model_vocab : gset str)
    (pos_to_token : list (str * list str)) (line : str)
  : res (list (str * list str)) :=
  match split (strip line) with
  | [word; pos; _] =>
      if bool_decide (word ∈ model_vocab)
         && bool_decide (is_Some (oget pos pos_to_token))
      then tokens ← getitem pos pos_to_token;
           Ok (oset pos (tokens ++ [word]) pos_to_token)
      else Ok pos_to_token
  | _ => Raise ValueError
  end.

(** One word of [pos_to_token["VBZ"]]. *)
Definition inflection_step (vbp : list str) (verb_inflections : gmap str str)
    (word : str) : gmap str str :=
  let candidate := plural_verb word in
  if bool_decide (candidate ∈ vbp)
  then <[word := candidate]> (<[candidate := word]> verb_inflections)
  else verb_inflections.

Definition create_verb_inflections (self : LinzenDownstream) (corpus_path : str)
  : res (gmap str str) :=
  f ← open fs (vocab_path self);
  let model_vocab : gset str := list_to_set (strip <$> f) in
  let pos_to_token := [(lit "VBP", []); (lit "VBZ", [])] in
  file ← open fs (path_join corpus_path (lit "wiki.vocab"));
  '(_, file) ← next file;
  pos_to_token ← for_fold file (wiki_vocab_body model_vocab) pos_to_token;
  vbz ← getitem (lit "VBZ") pos_to_token;
  vbp ← getitem (lit "VBP") pos_to_token;
  Ok (foldl (inflection_step vbp) ∅ vbz).

(** One condition of [raw_corpora]. *)
Definition create_corpora_body (self : LinzenDownstream)
    (verb_inflections : gmap str str) (items_per_subtask : option Z)
    (corpora : DownstreamCorpora) (entry : str * list RawItem)
  : res DownstreamCorpora :=
  let '(condition, items) := entry in
  corpus ← create_corpus self items verb_inflections items_per_subtask;
  let n_attractors := str_of_int (len condition) in
  let inner := default [] (oget n_attractors corpora) in
  Ok (oset n_attractors (oset condition corpus inner) corpora).

Definition create_corpora (self : LinzenDownstream) (corpus_path : str)
    (subtasks : list str) (items_per_subtask : option Z)
  : res DownstreamCorpora :=
  raw_corpora ← create_raw_corpora corpus_path subtasks;
  verb_inflections ← create_verb_inflections self corpus_path;
  for_fold raw_corpora
           (create_corpora_body self verb_inflections items_per_subtask) [].

(** The conditions used when the caller names none. *)
Definition default_subtasks : list str :=
  lit <$> ["SS"; "SP"; "PS"; "PP"; "SPP"; "PSS"; "SPPP"; "PSSS"]%string.

(** [initialize(corpus_path, subtasks=None, items_per_subtask=1000)].  For
    [items_per_subtask] the outer [None] is an omitted argument and
    [Some None] is an explicit [None]. *)
Definition initialize (self : LinzenDownstream) (corpus_path : str)
    (subtasks : option (list str)) (items_per_subtask : option (option Z))
  : res DownstreamCorpora :=
  let items_per_subtask := default (Some 1000) items_per_subtask in
  let subtasks :=
    match subtasks with
    | None | Some [] => default_subtasks
    | Some l => l
    end in
  create_corpora self corpus_path subtasks items_per_subtask.

(** A word of the list [vbz] whose proposed plural is in the list [vbp]:
    the words for which [create_verb_inflections] registers a pair. *)
Definition accepted (vbz vbp : list str) (w : str) : Prop :=
  w ∈ vbz /\ plural_verb w ∈ vbp.

(** The cap [items_per_subtask] applied to a list of examples. *)
Definition cap_examples (items_per_subtask : option Z) (l : list Example)
  : list Example :=
  match items_per_subtask with
  | Some n => slice l None (Some n)
  | None => l
  end.

(** The example of an item, if it yields one. *)
Definition example_of (verb_inflections : gmap str str) (item : RawItem)
  : option Example :=
  match item_to_example item verb_inflections with
  | Ok (Some e) => Some e
  | _ => None
  end.

(** The examples of a list of items, in order. *)
Definition surviving (verb_inflections : gmap str str) (items : list RawItem)
  : list Example :=
  omap (example_of verb_inflections) items.

(** The sentence that [item_to_example] splits: the original sentence,
    transliterated when the guard asks for it. *)
Definition normalized (orig_sentence : str) : str :=
  if needs_unidecode orig_sentence then unidecode orig_sentence
  else orig_sentence.

(** The corpus that the examples of [items] make under a cap. *)
Definition corpus_of (self : LinzenDownstream) (verb_inflections : gmap str str)
    (items_per_subtask : option Z) (items : list RawItem) : Corpus :=
  {| examples := cap_examples items_per_subtask (surviving verb_inflections items);
     corpus_vocab_path := vocab_path self |}.

End Linzen.

End Linzen.

(** ** [diagnnose/downstream/suite.py] *)

Module Suite.
Import Py.

(** What [perform_tasks] does besides computing its result, in order: it
    puts the model in evaluation mode, prints, and calls the two tasks. *)
Inductive event : Type :=
| ModelEval
| Print (text : str)
| CallLakretz
| CallMarvin.

Record DownstreamSuite : Type := {
  lakretz_path : option str;
  lakretz_tasks : option (list str);
  marvin_path : option str;
  marvin_tasks : option (list str);
  device : str;
  print_results : bool
}.

Section Suite.
(** The language model and the results of a task are opaque values. *)
Context {LanguageModel Results : Type}.

(** [lakretz_downstream] and [marvin_downstream] of [diagnnose.downstream],
    whose code is not part of these sources, applied to the model, the
    vocabulary path, the task path, the task names, the device and the
    print flag. *)
Context (lakretz_downstream marvin_downstream :
           LanguageModel -> str -> str -> option (list str) -> str -> bool
           -> res Results).

(** [if path:] for an optional string: [None] and the empty string are
    false. *)
Definition truthy (path : option str) : option str :=
  match path with
  | Some (ch :: rest) => Some (ch :: rest)
  | _ => None
  end.

(** The result pairs the events with the dictionary returned or the
    exception raised. *)
Definition perform_tasks (self : DownstreamSuite) (model : LanguageModel)
    (vocab_path : str) : list event * res (list (str * Results)) :=
  let results : list (str * Results) := [] in
  let events := [ModelEval] in
  let '(events, results) :=
    match truthy (lakretz_path self) with
    | Some path =>
        let events :=
          if print_results self
          then events ++ [Print ([10%N] ++ lit "--==LAKRETZ==--")]
          else events in
        (events ++ [CallLakretz],
         r ← lakretz_downstream model vocab_path path (lakretz_tasks self)
                                (device self) (print_results self);
         Ok (oset (lit "lakretz") r results))
    | None => (events, Ok results)
    end in
  match results with
  | Raise e => (events, Raise e)
  | Ok results =>
      match truthy (marvin_path self) with
      | Some path =>
          let events :=
            if print_results self
            then events ++ [Print ([10%N] ++ lit "--==MARVIN==--")]
            else events in
          (events ++ [CallMarvin],
           r ← marvin_downstream model vocab_path path (marvin_tasks self)
                                 (device self) (print_results self);
           Ok (oset (lit "marvin") r results))
      | None => (events, Ok results)
      end
  end.

End Suite.

End Suite.

(** ** [docs/update_headers.py] *)

Module UpdateHeaders.
Import Py.

(** [needle in hay] for two strings. *)
Fixpoint contains (needle hay : str) : bool :=
  match hay with
  | [] => bool_decide (needle = [])
  | _ :: hay' => bool_decide (needle `prefix_of` hay) || contains needle hay'
  end.

(** [l[i]] for an index [i >= 0]. *)
Definition list_getitem {A : Type} (l : list A) (i : nat) : res A :=
  match l !! i with Some x => Ok x | None => Raise IndexError end.

(** [l[-1]] *)
Definition getlast {A : Type} (l : list A) : res A :=
  match last l with Some x => Ok x | None => Raise IndexError end.

(** [del l[a:b]] for [0 <= a <= b]. *)
Definition del_slice {A : Type} (l : list A) (a b : nat) : list A :=
  take a l ++ drop b l.

Definition all_caps : list str :=
  lit <$> ["lstm"; "lm"; "gcd"; "awd"; "dc"; "w2i"; "c2i"]%string.

Section UpdateHeaders.
(** [str.upper] and [str.capitalize]. *)
Context (upper capitalize : str -> str).

(** [capital_name] of a [snake_name]. *)
Definition capital_name (snake_name : str) : str :=
  let capital_list :=
    (fun x => if bool_decide (x ∈ all_caps) then upper x else capitalize x)
      <$> split_on 95 (strip snake_name) in
  join (lit " ") capital_list.

(** One line of the file in the loop that builds [new_content]. *)
Definition new_content_body (content : list str) (new_content : list str)
    (line : str) : res (list str) :=
  new_content ←
    (if contains (lit "automodule") line
     then
       last_word ← getlast (split_on 32 line);
       snake_name ← getlast (split_on 46 last_word);
       content0 ← list_getitem content 0;
       if negb (bool_decide
                  (snake_name = slice content0 (Some (- len snake_name)) None))
          || (bool_decide (strip snake_name = lit "corpus")
              && bool_decide (len (split_on 46 last_word) = 3))
       then Ok (new_content
                  ++ [capital_name snake_name ++ [10%N];
                      replicate (Z.to_nat (len (capital_name snake_name))) 94%N
                        ++ [10%N]])
       else Ok new_content
     else Ok new_content);
  Ok (new_content ++ [line]).

(** The first two lines without their last nine characters, the first one
    also without what precedes its first dot. *)
Definition edit_titles (content : list str) : res (list str) :=
  line0 ← list_getitem content 0;
  let content :=
    <[0%nat := join (lit ".")
                 (slice (split_on 46 (slice line0 None (Some (-9)))) (Some 1) None)
               ++ [10%N]]> content in
  line1 ← list_getitem content 1;
  Ok (<[1%nat := slice line1 None (Some (-9)) ++ [10%N]]> content).

(** The two deletions that depend on line 8. *)
Definition drop_listings (content : list str) : res (list str) :=
  line8 ← list_getitem content 8;
  let content :=
    if contains (lit "Submodules") line8 then del_slice content 8 11
    else content in
  line8 ← list_getitem content 8;
  Ok (if contains (lit "Subpackages") line8 then del_slice content 8 17
      else content).

(** What the loop over the files writes back for a file read as [content]:
    lines 36 to 63 of the script. *)
Definition rewrite_content (content : list str) : res (list str) :=
  content ← edit_titles content;
  content ← drop_listings content;
  for_fold content (new_content_body content) [].

(** *** Vocabulary of the statements *)

(** [new] is [old] with, before some of its lines that contain "automodule",
    a title line and a line of as many carets. *)
Inductive decorated : list str -> list str -> Prop :=
| decorated_nil : decorated [] []
| decorated_keep line old new :
    decorated old new -> decorated (line :: old) (line :: new)
| decorated_title title line old new :
    contains (lit "automodule") line = true ->
    decorated old new ->
    decorated (line :: old)
              ((title ++ [10%N])
                 :: (replicate (length title) 94%N ++ [10%N])
                 :: line :: new).

End UpdateHeaders.

End UpdateHeaders.

(** ** Concrete environments

    Small inputs on which the statements below are exercised. *)

Module Fixtures.
Import Py.

(** A two-layer model whose hidden and cell widths differ. *)
Definition sizes2 : InitStates.SizeDict :=
  [(0, {| InitStates.h := 3; InitStates.c := 2 |});
   (1, {| InitStates.h := 5; InitStates.c := 4 |})].

(** A one-layer model. *)
Definition sizes1 : InitStates.SizeDict :=
  [(0, {| InitStates.h := 3; InitStates.c := 2 |})].

(** A persisted structure that holds a hidden state for layer 0 only. *)
Definition hx_only : gmap (Z * string) (InitStates.Tensor (scalar := Z)) :=
  {[ (0, "hx"%string) := {| InitStates.shape := [3]; InitStates.data := [0; 0; 0] |} ]}.

Definition load_hx_only (path : string)
  : res (gmap (Z * string) (InitStates.Tensor (scalar := Z))) := Ok hx_only.

(** A persisted structure with two entries, both of layer 0, whose hidden
    state is a tensor without dimensions. *)
Definition scalar_hx : gmap (Z * string) (InitStates.Tensor (scalar := Z)) :=
  <[(0, "hx"%string) := {| InitStates.shape := []; InitStates.data := [7] |}]>
    {[ (0, "cx"%string) := {| InitStates.shape := [2]; InitStates.data := [4; 5] |} ]}.

Definition load_scalar_hx (path : string)
  : res (gmap (Z * string) (InitStates.Tensor (scalar := Z))) := Ok scalar_hx.

(** An allocator that provides tensors of up to a million elements. *)
Definition million : Z := 1000000.

(** A loader that finds an empty structure. *)
Definition load_empty (path : string)
  : res (gmap (Z * string) (InitStates.Tensor (scalar := Z))) := Ok ∅.

(** The unbatched states of a one-layer model with hidden width 3 and cell
    width 2. *)
Definition unbatched1 : gmap (Z * string) (InitStates.Tensor (scalar := Z)) :=
  <[(0, "hx"%string) := {| InitStates.shape := [3]; InitStates.data := [1; 2; 3] |}]>
    {[ (0, "cx"%string) := {| InitStates.shape := [2]; InitStates.data := [4; 5] |} ]}.

(** A size specification keyed from 1, not from 0. *)
Definition sizes_from_1 : InitStates.SizeDict :=
  [(1, {| InitStates.h := 3; InitStates.c := 2 |});
   (2, {| InitStates.h := 5; InitStates.c := 4 |})].

(** A line of a text file: the text and its newline. *)
Definition line (x : string) : str := lit x ++ [10%N].

(** A suite with a Lakretz path and an empty Marvin path. *)
Definition lakretz_only : Suite.DownstreamSuite :=
  {| Suite.lakretz_path := Some (lit "lakretz"); Suite.lakretz_tasks := None;
     Suite.marvin_path := Some []; Suite.marvin_tasks := None;
     Suite.device := lit "cpu"; Suite.print_results := true |}.

(** A suite with both paths. *)
Definition both_tasks : Suite.DownstreamSuite :=
  {| Suite.lakretz_path := Some (lit "lakretz"); Suite.lakretz_tasks := None;
     Suite.marvin_path := Some (lit "marvin"); Suite.marvin_tasks := None;
     Suite.device := lit "cpu"; Suite.print_results := false |}.

(** A task that returns the length of its path, and one that fails. *)
Definition task_ok (model : unit) (vocab_path path : str)
    (tasks : option (list str)) (device : str) (print_results : bool) : res Z :=
  Ok (len path).

Definition task_fails (model : unit) (vocab_path path : str)
    (tasks : option (list str)) (device : str) (print_results : bool) : res Z :=
  Raise RuntimeError.

(** The lines of an rst file as sphinx-apidoc writes it for a package with
    one submodule. *)
Definition rst_file : list str :=
  line <$> ["diagnnose.activations package"; "=============================";
            ""; "Submodules"; "----------"; "";
            "diagnnose.activations.init\_states module";
            "------------------------------------------"; "";
            ".. automodule:: diagnnose.activations.init_states";
            "   :members:"]%string.

(** A row of a tab-separated file. *)
Definition tsv_row (fields : list string) : str :=
  join [9%N] (lit <$> fields) ++ [10%N].

(** An item of which only the fields read by the builder vary. *)
Definition item_of (orig : str) (pos v subj_i verb_i : string) : Linzen.RawItem :=
  {| Linzen.sentence := orig; Linzen.orig_sentence := orig;
     Linzen.pos_sentence := lit pos; Linzen.subj := lit "subj";
     Linzen.verb := lit v; Linzen.subj_pos := lit "NN";
     Linzen.has_rel := lit "0"; Linzen.has_nsubj := lit "0";
     Linzen.verb_pos := lit "VBP"; Linzen.subj_index := lit subj_i;
     Linzen.verb_index := lit verb_i; Linzen.n_intervening := lit "1";
     Linzen.last_intervening := lit "sg"; Linzen.n_diff_intervening := lit "1";
     Linzen.distance := lit "4"; Linzen.max_depth := lit "1";
     Linzen.all_nouns := lit "2"; Linzen.nouns_up_to_verb := lit "2" |}.

(** The sentence of the docstring of [item_to_sva_condition]. *)
Definition men_item : Linzen.RawItem :=
  item_of (lit "The men under the bridge walk") "DT NNS IN DT NN VBP" "walk" "2" "6".

(** A sentence with a Latin-1 letter beyond ASCII (code point 233). *)
Definition cafe_item : Linzen.RawItem :=
  item_of (lit "the caf" ++ [233%N] ++ lit " opens") "DT NN VBZ" "opens" "2" "3".

(** A transliteration that agrees with [unidecode] on ASCII text and on the
    letter of [cafe_item]. *)
Definition fold_e_acute (x : str) : str :=
  (fun ch => if (ch =? 233)%N then 101%N else ch) <$> x.

(** An inflection table with the two verbs of the items above. *)
Definition small_table : gmap str str :=
  <[lit "opens" := lit "open"]> (<[lit "open" := lit "opens"]>
  (<[lit "walks" := lit "walk"]> (<[lit "walk" := lit "walks"]> ∅))).

(** The 18 fields of a corpus row, of which only those read by the builder
    vary. *)
Definition fields (orig pos v subj_i verb_i : string) : list string :=
  [orig; orig; pos; "subj"; v; "NN"; "0"; "0"; "VBP"; subj_i; verb_i; "1";
   "sg"; "1"; "4"; "1"; "2"; "2"]%string.

(** The rows of a small corpus file: one row of condition "PS", three of
    condition "S" and one of condition "P". *)
Definition corpus_rows : list str :=
  [tsv_row (fields "The men under the bridge walk" "DT NNS IN DT NN VBP" "walk" "2" "6");
   tsv_row (fields "The man runs" "DT NN VBZ" "runs" "2" "3");
   tsv_row (fields "The man has it" "DT NN VBZ PRP" "has" "2" "3");
   tsv_row (fields "The men zork" "DT NNS VBP" "zork" "2" "3");
   tsv_row (fields "The man walks" "DT NN VBZ" "walks" "2" "3")].

(** The 18 fields of a row followed by an empty 19th field: the text of the
    row ends in a tab. *)
Definition trailing_tab_fields : list string :=
  fields "The man has it" "DT NN VBZ PRP" "has" "2" "3" ++ [""%string].

Definition trailing_tab_row : str := tsv_row trailing_tab_fields.

(** A file system with a corpus directory [data] and the model vocabulary
    [vocab.txt]. *)
Definition mk_fs (rows : list str) (vocab wiki : list string) : filesystem :=
  fun path =>
    if decide (path = lit "data/agr_50_mostcommon_10K.tsv")
    then Some (line "sentence	orig_sentence	pos_sentence" :: rows)
    else if decide (path = lit "vocab.txt") then Some (line <$> vocab)
    else if decide (path = lit "data/wiki.vocab")
    then Some (line <$> ("word pos freq"%string :: wiki))
    else None.

Definition vocab : list string := ["the"; "walk"; "walks"; "has"; "have"]%string.

Definition wiki : list string :=
  ["walk VBP 120"; "walks VBZ 80"; "has VBZ 300"; "have VBP 310"; "runs VBZ 40"]%string.

(** The tagged word list with "have" also listed as VBZ. *)
Definition wiki_have_twice : list string := wiki ++ ["have VBZ 2"%string].

Definition small_fs : filesystem := mk_fs corpus_rows vocab wiki.

(** [small_fs] without the tagged word list. *)
Definition fs_without_wiki : filesystem :=
  fun path => if decide (path = lit "data/wiki.vocab") then None else small_fs path.

(** [small_fs] with a tagged word list whose second row has two fields. *)
Definition fs_short_wiki_row : filesystem :=
  mk_fs corpus_rows vocab ["walk VBP 120"; "walks VBZ"; "has VBZ 300"]%string.

(** An item whose subject index is 0. *)
Definition subj0_item : Linzen.RawItem :=
  item_of (lit "The men under the bridge walk") "DT NNS IN DT NN VBP" "walk" "0" "6".

(** An item whose verb index is 0. *)
Definition verb0_item : Linzen.RawItem :=
  item_of (lit "The men under the bridge walk") "DT NNS IN DT NN VBP" "walk" "2" "0".

(** What [plural_verb] of [inflect] answers on the verbs used here; any
    other word is returned as it is. *)
Definition plural_of (w : str) : str :=
  if decide (w = lit "has") then lit "have"
  else if decide (w = lit "have") then lit "have"
  else if decide (w = lit "walks") then lit "walk"
  else if decide (w = lit "runs") then lit "run"
  else w.

Definition task : Linzen.LinzenDownstream := {| Linzen.vocab_path := lit "vocab.txt" |}.

Definition requested : list str := [lit "PS"; lit "S"; lit "P"].

(** The results of building on [small_fs]: with the cap left out, with a cap
    of one item and without cap; [[]] stands for a build that raised. *)
Definition built (cap : option (option Z)) : Linzen.DownstreamCorpora :=
  match Linzen.initialize small_fs fold_e_acute plural_of task (lit "data")
                          (Some requested) cap with
  | Ok out => out
  | Raise _ => []
  end.

(** The inflection table of a build on a file system. *)
Definition table_on (fs : filesystem) : gmap str str :=
  match Linzen.create_verb_inflections fs plural_of task (lit "data") with
  | Ok vi => vi
  | Raise _ => ∅
  end.


Definition built_cap1 : Linzen.DownstreamCorpora :=
  Eval vm_compute in built (Some (Some 1)).

Definition built_uncapped : Linzen.DownstreamCorpora :=
  Eval vm_compute in built (Some None).

End Fixtures.

(** * Properties *)

(** ** The runtime fragment *)

Module PyFacts.
Import Py.

Lemma for_fold_app {A S} (l1 l2 : list A) (body : S -> A -> res S) s :
  for_fold (l1 ++ l2) body s =
  match for_fold l1 body s with
  | Ok s' => for_fold l2 body s'
  | Raise e => Raise e
  end.
Proof.
  revert s. induction l1 as [|x l1 IH]; intros s; simpl; [done|].
  destruct (body s x); [apply IH | done].
Qed.

(** With non-negative bounds a slice is the plain index range. *)
Lemma slice_nonneg {A} (l : list A) (lo hi : Z) :
  0 <= lo -> 0 <= hi ->
  slice l (Some lo) (Some hi) =
  take (Z.to_nat hi - Z.to_nat lo)%nat (drop (Z.to_nat lo) l).
Proof.
  intros Hlo Hhi. unfold slice, adjust_index.
  destruct (Z.ltb_spec lo 0), (Z.ltb_spec hi 0); try lia.
  set (n := Z.of_nat (length l)).
  destruct (Z.le_gt_cases lo n) as [Hln|Hln].
  - rewrite (Z.min_l lo n) by lia.
    destruct (Z.le_gt_cases hi n) as [Hhn|Hhn].
    + rewrite (Z.min_l hi n) by lia. f_equal. lia.
    + rewrite (Z.min_r hi n) by lia.
      rewrite !take_ge; [done| |]; rewrite length_drop; unfold n in *; lia.
  - rewrite (Z.min_r lo n) by lia.
    rewrite !drop_ge by (unfold n in *; lia). by rewrite !take_nil.
Qed.

Lemma slice_prefix {A} (l : list A) (hi : Z) :
  0 <= hi -> slice l None (Some hi) = take (Z.to_nat hi) l.
Proof.
  intros Hhi. unfold slice, adjust_index.
  destruct (Z.ltb_spec hi 0); try lia. simpl. rewrite drop_0.
  destruct (Z.le_gt_cases hi (Z.of_nat (length l))).
  - rewrite Z.min_l by lia. f_equal; lia.
  - rewrite Z.min_r by lia. rewrite !take_ge; [done|lia|lia].
Qed.


(** A loop whose body can only raise [e] raises [e] as soon as some
    iteration does. *)
Lemma for_each_raises {A} (l : list A) (body : A -> res unit) e x :
  (forall y, y ∈ l -> body y = Ok tt \/ body y = Raise e) ->
  x ∈ l -> body x = Raise e ->
  for_each l body = Raise e.
Proof.
  unfold for_each. induction l as [|y l IH]; intros Hb Hx Hbx.
  - by apply elem_of_nil in Hx.
  - simpl. apply elem_of_cons in Hx as [<-|Hx]; [by rewrite Hbx|].
    destruct (Hb y) as [-> | ->]; [left| |done].
    apply IH; [|done|done]. intros z Hz. apply Hb. by right.
Qed.

Lemma for_each_raises_some {A} (l : list A) (body : A -> res unit)
    (P : exn -> Prop) x :
  (forall y, y ∈ l -> body y = Ok tt \/ exists e, body y = Raise e /\ P e) ->
  x ∈ l -> (exists e, body x = Raise e) ->
  exists e, for_each l body = Raise e /\ P e.
Proof.
  unfold for_each. induction l as [|y l IH]; intros Hb Hx [e Hbx].
  - by apply elem_of_nil in Hx.
  - simpl. destruct (Hb y) as [Hy|(e' & Hy & He')]; [left| |].
    + rewrite Hy. apply elem_of_cons in Hx as [->|Hx]; [congruence|].
      apply IH; [|done|by exists e]. intros z Hz. apply Hb. by right.
    + rewrite Hy. by exists e'.
Qed.

Lemma for_each_ok_inv {A} (l : list A) (body : A -> res unit) x :
  for_each l body = Ok tt -> x ∈ l -> body x = Ok tt.
Proof.
  unfold for_each. induction l as [|y l IH]; simpl; intros Hl Hx.
  - by apply elem_of_nil in Hx.
  - destruct (body y) as [[]|] eqn:Hy; [|done].
    apply elem_of_cons in Hx as [->|Hx]; [done|by apply IH].
Qed.

Section odict.
Context {K V : Type} `{EqDecision K}.
Implicit Types (k : K) (v : V) (d : list (K * V)).

Lemma oget_oset_eq k v d : oget k (oset k v d) = Some v.
Proof.
  induction d as [|[k' v'] d IH]; simpl.
  - by rewrite decide_True.
  - destruct (decide (k = k')) as [->|Hne]; simpl.
    + by rewrite decide_True.
    + by rewrite decide_False.
Qed.

Lemma oget_oset_ne k k' v d : k <> k' -> oget k' (oset k v d) = oget k' d.
Proof.
  intros Hne. induction d as [|[k0 v0] d IH]; simpl.
  - rewrite decide_False; [done|congruence].
  - destruct (decide (k = k0)) as [->|Hne0]; simpl.
    + rewrite !decide_False; [done|congruence|congruence].
    + destruct (decide (k' = k0)); [done|apply IH].
Qed.

Lemma oget_Some_elem k v d : oget k d = Some v -> (k, v) ∈ d.
Proof.
  induction d as [|[k' v'] d IH]; simpl; [done|].
  destruct (decide (k = k')) as [->|Hne].
  - intros [= ->]. left.
  - intros Hd. right. by apply IH.
Qed.

Lemma oget_None k d : oget k d = None <-> k ∉ d.*1.
Proof.
  induction d as [|[k' v'] d IH]; simpl.
  - split; [intros _; apply not_elem_of_nil | done].
  - rewrite not_elem_of_cons. destruct (decide (k = k')) as [->|Hne].
    + split; [done | intros [? _]; done].
    + rewrite IH. tauto.
Qed.

Lemma oget_is_Some k d : is_Some (oget k d) <-> k ∈ d.*1.
Proof.
  rewrite <- not_eq_None_Some, oget_None.
  destruct (decide (k ∈ d.*1)); tauto.
Qed.

Lemma oget_elem_NoDup k v d : NoDup d.*1 -> (k, v) ∈ d -> oget k d = Some v.
Proof.
  induction d as [|[k' v'] d IH]; csimpl; intros Hnd Hin.
  - by apply elem_of_nil in Hin.
  - apply NoDup_cons in Hnd as [Hk' Hnd].
    apply elem_of_cons in Hin as [[= -> ->]|Hin]; [by rewrite decide_True|].
    rewrite decide_False; [by apply IH|].
    intros ->. apply Hk'. apply list_elem_of_fmap. by exists (k', v).
Qed.

Lemma oset_keys k v d :
  (oset k v d).*1 = if bool_decide (k ∈ d.*1) then d.*1 else d.*1 ++ [k].
Proof.
  induction d as [|[k' v'] d IH]; csimpl; [done|].
  destruct (decide (k = k')) as [->|Hne]; csimpl.
  - rewrite bool_decide_eq_true_2; [done|left].
  - rewrite IH. destruct (decide (k ∈ d.*1)) as [Hin|Hnin].
    + rewrite !bool_decide_eq_true_2; [done|by right|done].
    + rewrite !bool_decide_eq_false_2; [done| |done].
      rewrite elem_of_cons. tauto.
Qed.

Lemma oset_NoDup k v d : NoDup d.*1 -> NoDup (oset k v d).*1.
Proof.
  intros Hd. rewrite oset_keys. case_bool_decide as Hin; [done|].
  apply NoDup_app. split_and!; [done| |apply NoDup_singleton].
  intros x Hx ->%list_elem_of_singleton. done.
Qed.
End odict.

Lemma slice_negative_stop {A} (l : list A) (hi : Z) :
  hi < 0 -> slice l None (Some hi) = take (Z.to_nat (len l + hi)) l.
Proof.
  intros Hhi. unfold slice, adjust_index, len.
  destruct (Z.ltb_spec hi 0); [|lia]. simpl. rewrite drop_0. f_equal. lia.
Qed.

Lemma slice_negative_start {A} (l : list A) (lo hi : Z) :
  lo < 0 -> 0 <= hi ->
  slice l (Some lo) (Some hi)
  = take (Z.to_nat hi - Z.to_nat (len l + lo))%nat (drop (Z.to_nat (len l + lo)) l).
Proof.
  intros Hlo Hhi. unfold slice, adjust_index, len.
  destruct (Z.ltb_spec lo 0), (Z.ltb_spec hi 0); try lia.
  set (n := Z.of_nat (length l)).
  replace (Z.to_nat (Z.max 0 (lo + n))) with (Z.to_nat (n + lo)) by lia.
  destruct (Z.le_gt_cases hi n) as [Hhn|Hhn].
  - rewrite Z.min_l by lia. f_equal. lia.
  - rewrite Z.min_r by lia.
    rewrite !take_ge; [done| |]; rewrite length_drop; unfold n in *; lia.
Qed.

Lemma elem_of_slice {A} (l : list A) (start stop : option Z) x :
  x ∈ slice l start stop -> x ∈ l.
Proof.
  unfold slice. intros Hx. by apply subseteq_take, subseteq_drop in Hx.
Qed.

End PyFacts.

(** ** Initial states *)

Module InitStatesFacts.
Import Py PyFacts InitStates.

Section facts.
Context {scalar : Type} (zero : scalar) (max_numel : Z).
Context (load_pickle : string -> res (gmap (Z * string) (Tensor (scalar := scalar)))).
Implicit Types (st : gmap (Z * string) (Tensor (scalar := scalar))).
Implicit Types (sizes : SizeDict) (sz : LayerSize) (layer : Z).

Lemma is_int64_true (n : Z) : - 2 ^ 63 <= n < 2 ^ 63 -> is_int64 n = true.
Proof.
  intros Hn. unfold is_int64.
  apply andb_true_intro. split; [apply Z.leb_le|apply Z.ltb_lt]; lia.
Qed.

Lemma torch_zeros_ok (batch_size width : Z) :
  0 <= batch_size < 2 ^ 63 -> 0 <= width < 2 ^ 63 ->
  batch_size * width <= capacity max_numel ->
  torch_zeros zero max_numel (batch_size, width)
  = Ok (zero_tensor zero [batch_size; width]).
Proof.
  intros HB Hw Hcap. unfold torch_zeros. simpl.
  rewrite !is_int64_true by lia. simpl.
  destruct (Z.ltb_spec batch_size 0); [lia|].
  destruct (Z.ltb_spec width 0); [lia|]. simpl.
  destruct (Z.ltb_spec (capacity max_numel) (batch_size * width)); [lia|done].
Qed.

Lemma zero_tensor_data (shp : list Z) :
  length (data (zero_tensor zero shp)) = Z.to_nat (numel shp) /\
  Forall (eq zero) (data (zero_tensor zero shp)).
Proof.
  simpl. split; [apply length_replicate|].
  apply Forall_forall. intros x Hx. by apply elem_of_replicate in Hx as [-> _].
Qed.

Lemma validate_body_cases sizes path st item :
  has_leading_dim st -> item ∈ sizes ->
  _validate_body (init sizes path) st item = Ok tt \/
  _validate_body (init sizes path) st item = Raise AssertionError.
Proof.
  intros Hdim Hin. unfold _validate_body, getstate, getitem, size0. simpl.
  destruct (st !! (item.1, "hx"%string)) as [hx|] eqn:Hhx; [|by right].
  destruct (st !! (item.1, "cx"%string)) as [cx|] eqn:Hcx; [|by right].
  rewrite !bool_decide_eq_true_2 by eauto. simpl.
  apply Hdim in Hhx, Hcx.
  destruct (shape hx) as [|n rest]; [done|]. simpl.
  destruct (oget item.1 sizes) as [sz|] eqn:Hsz; simpl.
  - case_bool_decide; simpl; [|by right].
    destruct (shape cx) as [|m rest']; [done|]. simpl.
    case_bool_decide; simpl; [by left|by right].
  - apply oget_None in Hsz. destruct Hsz. apply list_elem_of_fmap. eauto.
Qed.

Lemma validate_body_mismatch sizes path st layer sz sz' :
  has_leading_dim st -> oget layer sizes = Some sz -> layer_mismatch st layer sz ->
  _validate_body (init sizes path) st (layer, sz') = Raise AssertionError.
Proof.
  intros Hdim Hsz Hbad. unfold _validate_body, getstate, getitem, size0. simpl.
  destruct (st !! (layer, "hx"%string)) as [hx|] eqn:Hhx; [|done].
  destruct (st !! (layer, "cx"%string)) as [cx|] eqn:Hcx; [|done].
  rewrite !bool_decide_eq_true_2 by eauto. simpl.
  pose proof (Hdim _ _ Hhx) as Hh. pose proof (Hdim _ _ Hcx) as Hc.
  destruct (shape hx) as [|n rest] eqn:Eh; [done|].
  destruct (shape cx) as [|m rest'] eqn:Ec; [done|]. simpl. rewrite Hsz. simpl.
  destruct (decide (n = h sz)) as [Hn|Hn];
    [rewrite (bool_decide_eq_true_2 _ Hn)|by rewrite (bool_decide_eq_false_2 _ Hn)].
  destruct (decide (m = c sz)) as [Hm|Hm];
    [rewrite (bool_decide_eq_true_2 _ Hm)|by rewrite (bool_decide_eq_false_2 _ Hm)].
  destruct Hbad as [?|[?|[(t & Ht & Hne)|(t & Ht & Hne)]]]; simplify_eq.
  - rewrite Eh in Hne. done.
  - rewrite Ec in Hne. done.
Qed.

(** Without the assumption on the dimensions: the checks of a layer pass,
    or fail an assertion, or read the first dimension of a tensor that has
    none. *)
Lemma validate_body_cases_any sizes path st item :
  item ∈ sizes ->
  _validate_body (init sizes path) st item = Ok tt \/
  exists e,
    _validate_body (init sizes path) st item = Raise e /\
    (e = AssertionError \/ (e = IndexError /\ zero_dim_entry sizes st)).
Proof.
  intros Hin.
  assert (item.1 ∈ sizes.*1) as Hkey by (apply list_elem_of_fmap; eauto).
  unfold _validate_body, getstate, getitem, size0. simpl.
  destruct (st !! (item.1, "hx"%string)) as [hx|] eqn:Hhx; [|right; eauto].
  destruct (st !! (item.1, "cx"%string)) as [cx|] eqn:Hcx; [|right; eauto].
  rewrite !bool_decide_eq_true_2 by eauto. simpl.
  destruct (shape hx) as [|n rest] eqn:Eh; simpl.
  { right. exists IndexError. split; [done|]. right. split; [done|].
    exists item.1, "hx"%string, hx. eauto. }
  destruct (oget item.1 sizes) as [sz|] eqn:Hsz; simpl.
  - case_bool_decide; simpl; [|right; eauto].
    destruct (shape cx) as [|m rest'] eqn:Ec; simpl.
    { right. exists IndexError. split; [done|]. right. split; [done|].
      exists item.1, "cx"%string, cx. eauto. }
    case_bool_decide; simpl; [by left|right; eauto].
  - apply oget_None in Hsz. by destruct Hsz.
Qed.

Lemma validate_body_mismatch_any sizes path st layer sz sz' :
  oget layer sizes = Some sz -> layer_mismatch st layer sz ->
  exists e, _validate_body (init sizes path) st (layer, sz') = Raise e.
Proof.
  intros Hsz Hbad. unfold _validate_body, getstate, getitem, size0. simpl.
  destruct (st !! (layer, "hx"%string)) as [hx|] eqn:Hhx; [|eauto].
  destruct (st !! (layer, "cx"%string)) as [cx|] eqn:Hcx; [|eauto].
  rewrite !bool_decide_eq_true_2 by eauto. simpl.
  destruct (shape hx) as [|n rest] eqn:Eh; simpl; [eauto|].
  rewrite Hsz. simpl.
  destruct (decide (n = h sz)) as [Hn|Hn];
    [rewrite (bool_decide_eq_true_2 _ Hn)|rewrite (bool_decide_eq_false_2 _ Hn); eauto].
  simpl. destruct (shape cx) as [|m rest'] eqn:Ec; simpl; [eauto|].
  destruct (decide (m = c sz)) as [Hm|Hm];
    [rewrite (bool_decide_eq_true_2 _ Hm)|rewrite (bool_decide_eq_false_2 _ Hm); eauto].
  destruct Hbad as [?|[?|[(t & Ht & Hne)|(t & Ht & Hne)]]]; simplify_eq.
  - rewrite Eh in Hne. done.
  - rewrite Ec in Hne. done.
Qed.

Lemma validate_body_present sizes path st item :
  _validate_body (init sizes path) st item = Ok tt ->
  is_Some (st !! (item.1, "hx"%string)) /\ is_Some (st !! (item.1, "cx"%string)).
Proof.
  unfold _validate_body. simpl.
  destruct (st !! (item.1, "hx"%string)) as [hx|]; [|done].
  destruct (st !! (item.1, "cx"%string)) as [cx|]; [|done]. eauto.
Qed.

(** [_validate] compares the number of entries with the number of layers,
    and then asks for two entries per layer: the only structure it accepts
    is the empty one, for a model without layers. *)
Lemma validate_accepts_no_layer sizes path st :
  NoDup sizes.*1 -> _validate (init sizes path) st = Ok tt ->
  sizes = [] /\ st = ∅.
Proof.
  intros Hnd. unfold _validate. simpl.
  case_bool_decide as Hsize; simpl; [|done]. intros Hloop.
  set (keys := ((fun layer => (layer, "hx"%string)) <$> sizes.*1)
                 ++ ((fun layer => (layer, "cx"%string)) <$> sizes.*1)).
  assert (NoDup keys) as Hkeys.
  { apply NoDup_app. split_and!.
    - apply NoDup_fmap_2; [intros ?? [= ?]; done|done].
    - intros key (l & -> & _)%list_elem_of_fmap (l' & [=] & _)%list_elem_of_fmap.
    - apply NoDup_fmap_2; [intros ?? [= ?]; done|done]. }
  assert (list_to_set keys ⊆ dom st) as Hsub.
  { intros key Hkey%elem_of_list_to_set. apply elem_of_dom.
    apply elem_of_app in Hkey as [Hkey|Hkey];
      apply list_elem_of_fmap in Hkey as (l & -> & Hl);
      apply list_elem_of_fmap in Hl as (item & -> & Hitem);
      apply (for_each_ok_inv _ _ _ Hloop), validate_body_present in Hitem;
      tauto. }
  apply subseteq_size in Hsub.
  rewrite size_list_to_set, size_dom in Hsub by done.
  unfold keys, len in *. rewrite length_app, !length_fmap in Hsub.
  assert (length sizes = 0%nat) as Hlen by lia.
  destruct sizes; [|done]. split; [done|].
  apply map_size_empty_iff. simpl in Hsize. lia.
Qed.

Lemma validate_count sizes path st :
  Z.of_nat (size st) <> len sizes ->
  _validate (init sizes path) st = Raise AssertionError.
Proof.
  intros Hne. unfold _validate. simpl. by rewrite bool_decide_eq_false_2.
Qed.

Lemma validate_mismatch sizes path st layer sz :
  has_leading_dim st -> oget layer sizes = Some sz -> layer_mismatch st layer sz ->
  _validate (init sizes path) st = Raise AssertionError.
Proof.
  intros Hdim Hsz Hbad. unfold _validate. simpl.
  case_bool_decide; simpl; [|done].
  apply (for_each_raises _ _ _ (layer, sz)).
  - intros item Hitem. by apply validate_body_cases.
  - by apply oget_Some_elem.
  - by eapply validate_body_mismatch.
Qed.

Lemma validate_mismatch_any sizes path st layer sz :
  oget layer sizes = Some sz -> layer_mismatch st layer sz ->
  _validate (init sizes path) st = Raise AssertionError \/
  (_validate (init sizes path) st = Raise IndexError /\ zero_dim_entry sizes st).
Proof.
  intros Hsz Hbad. unfold _validate. simpl.
  case_bool_decide; simpl; [|by left].
  destruct (for_each_raises_some sizes (_validate_body (init sizes path) st)
              (fun e => e = AssertionError \/ (e = IndexError /\ zero_dim_entry sizes st))
              (layer, sz)) as (e & -> & [->|[-> Hzero]]).
  - intros item Hitem. by apply validate_body_cases_any.
  - by apply oget_Some_elem.
  - by eapply validate_body_mismatch_any.
  - by left.
  - by right.
Qed.

(** C4, as the code has it.  When the initial states are read from a file,
    [create] raises the assertion error of [_validate] (the shape-mismatch
    error of the documentation) if the number of entries of the loaded
    structure is not the number of layers and, for a structure all of whose
    tensors have a first dimension, if for some layer the hidden or the
    cell tensor is missing or its first dimension is not the width declared
    for it.  Without the assumption on the dimensions such a structure is
    rejected as well, but not always by an assertion: [create] raises the
    assertion error or, when a tensor stored for some layer has no
    dimension at all, possibly the [IndexError] of reading its first
    dimension. *)
Theorem create_rejects_mismatch sizes path st batch_size :
  load_pickle path = Ok st ->
  (Z.of_nat (size st) <> len sizes ->
   create zero max_numel load_pickle (init sizes (Some path)) batch_size
   = Raise AssertionError) /\
  (has_leading_dim st ->
   forall layer sz, oget layer sizes = Some sz -> layer_mismatch st layer sz ->
   create zero max_numel load_pickle (init sizes (Some path)) batch_size
   = Raise AssertionError) /\
  (forall layer sz, oget layer sizes = Some sz -> layer_mismatch st layer sz ->
   create zero max_numel load_pickle (init sizes (Some path)) batch_size
   = Raise AssertionError \/
   (create zero max_numel load_pickle (init sizes (Some path)) batch_size
    = Raise IndexError /\ zero_dim_entry sizes st)).
Proof.
  intros Hload. unfold create. simpl. rewrite Hload. simpl. split_and!.
  - intros Hne. by rewrite validate_count.
  - intros Hdim layer sz Hsz Hbad. by erewrite validate_mismatch.
  - intros layer sz Hsz Hbad.
    destruct (validate_mismatch_any sizes (Some path) st layer sz Hsz Hbad)
      as [-> | [-> Hzero]]; [by left|by right].
Qed.

Lemma create_zero_state_body_ok sizes path batch_size st layer sz :
  0 <= batch_size < 2 ^ 63 -> oget layer sizes = Some sz ->
  0 <= c sz < 2 ^ 63 -> batch_size * c sz <= capacity max_numel ->
  create_zero_state_body zero max_numel (init sizes path) batch_size st layer
  = Ok (<[(layer, "hx"%string) := zero_tensor zero [batch_size; c sz]]>
          (<[(layer, "cx"%string) := zero_tensor zero [batch_size; c sz]]> st)).
Proof.
  intros HB Hsz Hc Hcap. unfold create_zero_state_body, _create_zero_state, getitem.
  simpl. rewrite Hsz. simpl.
  rewrite torch_zeros_ok by done. done.
Qed.

(** The loop of [create_zero_state] over the layers [layers], started on
    [st0]: both tensors of every layer visited are zero tensors, every other
    entry is that of [st0]. *)
Lemma create_zero_state_loop sizes path batch_size layers st0 :
  0 <= batch_size < 2 ^ 63 ->
  (forall layer, layer ∈ layers ->
     exists sz, oget layer sizes = Some sz /\ 0 <= c sz < 2 ^ 63 /\
                batch_size * c sz <= capacity max_numel) ->
  exists st,
    for_fold layers (create_zero_state_body zero max_numel (init sizes path) batch_size) st0
    = Ok st /\
    (forall layer sz kind, layer ∈ layers -> oget layer sizes = Some sz ->
       kind = "hx"%string \/ kind = "cx"%string ->
       st !! (layer, kind) = Some (zero_tensor zero [batch_size; c sz])) /\
    (forall layer kind,
       layer ∉ layers \/ (kind <> "hx"%string /\ kind <> "cx"%string) ->
       st !! (layer, kind) = st0 !! (layer, kind)).
Proof.
  intros HB. revert st0.
  induction layers as [|l layers IH]; intros st0 Hsizes; simpl.
  - exists st0. split_and!; [done| |done].
    intros ??? Hin. by apply elem_of_nil in Hin.
  - destruct (Hsizes l) as (sz & Hsz & Hc & Hcap); [left|].
    rewrite (create_zero_state_body_ok _ _ _ _ _ sz) by done.
    destruct (IH (<[(l, "hx"%string) := zero_tensor zero [batch_size; c sz]]>
                    (<[(l, "cx"%string) := zero_tensor zero [batch_size; c sz]]> st0)))
      as (st & Hst & Hin & Hout).
    { intros layer Hl. apply Hsizes. by right. }
    exists st. split_and!; [done| |].
    + intros layer sz' kind Hl Hsz' Hkind.
      destruct (decide (layer ∈ layers)) as [Hl'|Hl']; [by eapply Hin|].
      apply elem_of_cons in Hl as [->|?]; [|done].
      rewrite Hout by (by left). simplify_eq.
      destruct Hkind as [-> | ->].
      * by rewrite lookup_insert_eq.
      * rewrite lookup_insert_ne by done. by rewrite lookup_insert_eq.
    + intros layer kind Hk. rewrite Hout.
      * rewrite !lookup_insert_ne; [done| |]; intros [= -> <-];
          destruct Hk as [Hk|[??]]; try done; apply Hk; left.
      * destruct Hk as [Hk|?]; [left|by right].
        intros ?. apply Hk. by right.
Qed.

(** C8. For a layer-size specification indexed by the layer numbers
    [0 .. L-1] and a batch size [B] such that [B] and the cell width [c] of
    every layer are non-negative 64-bit integers and a tensor of [B * c]
    elements can be allocated, [create_zero_state(B)] returns a dictionary
    that holds, for every layer, a hidden and a cell tensor, both of shape
    [(B, c)] for the cell width [c] of the layer (the hidden width [h] is
    not consulted) and both filled with zero; it holds nothing else. *)
Theorem create_zero_state_zeros sizes path batch_size :
  0 <= batch_size < 2 ^ 63 ->
  (forall layer, 0 <= layer < len sizes ->
     exists sz, oget layer sizes = Some sz /\ 0 <= c sz < 2 ^ 63 /\
                batch_size * c sz <= capacity max_numel) ->
  exists st,
    create_zero_state zero max_numel (init sizes path) batch_size = Ok st /\
    (forall layer sz kind,
       0 <= layer < len sizes -> oget layer sizes = Some sz ->
       kind = "hx"%string \/ kind = "cx"%string ->
       exists t, st !! (layer, kind) = Some t /\
                 shape t = [batch_size; c sz] /\
                 length (data t) = Z.to_nat (batch_size * c sz) /\
                 Forall (eq zero) (data t)) /\
    (forall key t, st !! key = Some t ->
       0 <= key.1 < len sizes /\ (key.2 = "hx"%string \/ key.2 = "cx"%string)).
Proof.
  intros HB Hsizes. unfold create_zero_state, range. simpl.
  destruct (create_zero_state_loop sizes path batch_size
              (seqZ 0 (len sizes)) ∅ HB) as (st & Hst & Hin & Hout).
  { intros layer Hl%elem_of_seqZ. apply Hsizes. lia. }
  exists st. split_and!; [done| |].
  - intros layer sz kind Hl Hsz Hkind.
    exists (zero_tensor zero [batch_size; c sz]). split_and!.
    + apply Hin; [apply elem_of_seqZ; lia|done|done].
    + done.
    + destruct (zero_tensor_data [batch_size; c sz]) as [-> _].
      simpl. f_equal. lia.
    + apply zero_tensor_data.
  - intros [layer kind] t Hkey. simpl.
    destruct (decide (layer ∈ seqZ 0 (len sizes))) as [Hl|Hl].
    + apply elem_of_seqZ in Hl.
      destruct (decide (kind = "hx"%string)); [split; [lia|by left]|].
      destruct (decide (kind = "cx"%string)); [split; [lia|by right]|].
      rewrite Hout in Hkey by (by right). by rewrite lookup_empty in Hkey.
    + rewrite Hout in Hkey by (by left). by rewrite lookup_empty in Hkey.
Qed.

End facts.

Lemma create_rejects_mismatch_witness :
  create 0 Fixtures.million Fixtures.load_hx_only
         (init Fixtures.sizes2 (Some "states.pickle"%string)) 1
  = Raise AssertionError /\
  create 0 Fixtures.million Fixtures.load_hx_only
         (init Fixtures.sizes1 (Some "states.pickle"%string)) 1
  = Raise AssertionError /\
  (create 0 Fixtures.million Fixtures.load_scalar_hx
          (init Fixtures.sizes2 (Some "states.pickle"%string)) 1
   = Raise AssertionError \/
   (create 0 Fixtures.million Fixtures.load_scalar_hx
           (init Fixtures.sizes2 (Some "states.pickle"%string)) 1
    = Raise IndexError /\ zero_dim_entry Fixtures.sizes2 Fixtures.scalar_hx)).
Proof.
  split_and!.
  - apply (proj1 (create_rejects_mismatch 0 Fixtures.million Fixtures.load_hx_only
                    Fixtures.sizes2 "states.pickle"%string Fixtures.hx_only 1 eq_refl)).
    vm_compute. discriminate.
  - apply (proj1 (proj2 (create_rejects_mismatch 0 Fixtures.million
                           Fixtures.load_hx_only Fixtures.sizes1
                           "states.pickle"%string Fixtures.hx_only 1 eq_refl)))
      with (layer := 0) (sz := {| h := 3; c := 2 |}).
    + intros key t Hkey. unfold Fixtures.hx_only in Hkey.
      apply lookup_singleton_Some in Hkey as [_ <-]. discriminate.
    + reflexivity.
    + right. left. reflexivity.
  - apply (proj2 (proj2 (create_rejects_mismatch 0 Fixtures.million
                           Fixtures.load_scalar_hx Fixtures.sizes2
                           "states.pickle"%string Fixtures.scalar_hx 1 eq_refl)))
      with (layer := 1) (sz := {| h := 5; c := 4 |}).
    + reflexivity.
    + left. reflexivity.
Defined.

(** C4 as stated fails: in a structure for a two-layer model that holds two
    entries, both of layer 0, the pair of layer 1 is missing; when the
    hidden state of layer 0 is a tensor without dimensions, [create] does
    not raise the assertion error of [_validate] but the [IndexError] of
    reading its first dimension. *)
Lemma zero_dim_state_raises_index_error :
  Z.of_nat (size Fixtures.scalar_hx) = len Fixtures.sizes2 /\
  oget 1 Fixtures.sizes2 = Some {| h := 5; c := 4 |} /\
  layer_mismatch Fixtures.scalar_hx 1 {| h := 5; c := 4 |} /\
  create 0 Fixtures.million Fixtures.load_scalar_hx
         (init Fixtures.sizes2 (Some "states.pickle"%string)) 1
  = Raise IndexError.
Proof. split_and!; [reflexivity|reflexivity|left; reflexivity|reflexivity]. Qed.

Lemma create_zero_state_zeros_witness :
  exists st,
    create_zero_state 0 Fixtures.million (init Fixtures.sizes2 None) 2 = Ok st /\
    (forall layer sz kind,
       0 <= layer < len Fixtures.sizes2 -> oget layer Fixtures.sizes2 = Some sz ->
       kind = "hx"%string \/ kind = "cx"%string ->
       exists t, st !! (layer, kind) = Some t /\
                 shape t = [2; c sz] /\
                 length (data t) = Z.to_nat (2 * c sz) /\
                 Forall (eq 0) (data t)) /\
    (forall key t, st !! key = Some t ->
       0 <= key.1 < len Fixtures.sizes2 /\ (key.2 = "hx"%string \/ key.2 = "cx"%string)).
Proof.
  apply (create_zero_state_zeros 0 Fixtures.million Fixtures.sizes2 None 2); [lia|].
  intros layer Hlayer. change (len Fixtures.sizes2) with 2 in Hlayer.
  destruct (decide (layer = 0)) as [->|Hne].
  - eexists. split; [reflexivity|]. split; [simpl; lia|by vm_compute].
  - assert (layer = 1) as -> by lia.
    eexists. split; [reflexivity|]. split; [simpl; lia|by vm_compute].
Defined.

(** *** Further properties of the initial states *)

Section more_facts.
Context {scalar : Type} (zero : scalar) (max_numel : Z).
Context (load_pickle : string -> res (gmap (Z * string) (Tensor (scalar := scalar)))).
Implicit Types (st out : gmap (Z * string) (Tensor (scalar := scalar))).
Implicit Types (sizes : SizeDict) (sz : LayerSize) (layer : Z).

Lemma state_keys_NoDup n : NoDup (state_keys n).
Proof.
  unfold state_keys, range. apply NoDup_app. split_and!.
  - apply NoDup_fmap_2; [intros ?? [= ?]; done|apply NoDup_seqZ].
  - intros key (l & -> & _)%list_elem_of_fmap (l' & [=] & _)%list_elem_of_fmap.
  - apply NoDup_fmap_2; [intros ?? [= ?]; done|apply NoDup_seqZ].
Qed.

Lemma elem_of_state_keys n key :
  key ∈ state_keys n <->
  0 <= key.1 < n /\ (key.2 = "hx"%string \/ key.2 = "cx"%string).
Proof.
  unfold state_keys, range. rewrite elem_of_app, !list_elem_of_fmap.
  destruct key as [l k]. simpl. split.
  - intros [(l' & [= -> ->] & Hl)|(l' & [= -> ->] & Hl)];
      apply elem_of_seqZ in Hl; split; (lia || tauto).
  - intros [Hl [-> | ->]]; [left|right]; exists l;
      (split; [done|apply elem_of_seqZ; lia]).
Qed.

Lemma length_state_keys n : 0 <= n -> Z.of_nat (length (state_keys n)) = 2 * n.
Proof.
  intros Hn. unfold state_keys, range.
  rewrite length_app, !length_fmap, length_seqZ. lia.
Qed.

(** A dictionary whose keys are those of a duplicate-free list has the
    length of that list. *)
Lemma size_of_keys st (keys : list (Z * string)) :
  NoDup keys -> (forall key, is_Some (st !! key) <-> key ∈ keys) ->
  size st = length keys.
Proof.
  intros Hnd Hkeys. rewrite <- size_dom, <- (size_list_to_set (C := gset _) keys) by done.
  f_equal. apply set_eq. intros key.
  by rewrite elem_of_dom, elem_of_list_to_set.
Qed.

Lemma repeat_interleave_unsqueeze (t : Tensor (scalar := scalar)) (n : Z) :
  0 <= n < 2 ^ 63 -> tensor_wf t -> n * numel (shape t) <= capacity max_numel ->
  repeat_interleave0 max_numel (unsqueeze0 t) n = Ok (replicated n t).
Proof.
  intros Hn [_ Hwf] Hcap. unfold repeat_interleave0, unsqueeze0, replicated.
  cbn [shape data]. rewrite Z.mul_1_l.
  rewrite is_int64_true by lia.
  destruct (Z.ltb_spec n 0); [lia|]. cbn [negb orb].
  destruct (Z.ltb_spec (capacity max_numel) (numel (n :: shape t))) as [Hlt|_].
  { cbn [numel foldr] in Hlt. unfold numel in Hcap. lia. }
  cbn [negb orb]. do 2 f_equal.
  change (Z.to_nat 1) with 1%nat. simpl.
  rewrite app_nil_r. do 2 f_equal. apply take_ge. lia.
Qed.

(** The loop of [_expand_batch_size] over the layers [layers]. *)
Lemma expand_batch_size_loop st n layers out0 :
  0 <= n < 2 ^ 63 ->
  (forall layer kind, layer ∈ layers -> kind = "hx"%string \/ kind = "cx"%string ->
     exists t, st !! (layer, kind) = Some t /\ tensor_wf t /\
               n * numel (shape t) <= capacity max_numel) ->
  exists out,
    for_fold layers (_expand_batch_size_body max_numel st n) out0 = Ok out /\
    (forall layer kind t, layer ∈ layers ->
       kind = "hx"%string \/ kind = "cx"%string ->
       st !! (layer, kind) = Some t ->
       out !! (layer, kind) = Some (replicated n t)) /\
    (forall layer kind,
       layer ∉ layers \/ (kind <> "hx"%string /\ kind <> "cx"%string) ->
       out !! (layer, kind) = out0 !! (layer, kind)).
Proof.
  intros Hn. revert out0.
  induction layers as [|l layers IH]; intros out0 Hst; simpl.
  - exists out0. split_and!; [done| |done].
    intros ??? Hin. by apply elem_of_nil in Hin.
  - destruct (Hst l "cx"%string) as (cx & Hcx & Hcxwf & Hcxcap); [left|by right|].
    destruct (Hst l "hx"%string) as (hx & Hhx & Hhxwf & Hhxcap); [left|by left|].
    unfold _expand_batch_size_body at 1, getstate. rewrite Hcx, Hhx. simpl.
    rewrite !repeat_interleave_unsqueeze by done. simpl.
    destruct (IH (<[(l, "hx"%string) := replicated n hx]>
                    (<[(l, "cx"%string) := replicated n cx]> out0)))
      as (out & Hout & Hin & Hrest).
    { intros layer kind Hl. apply Hst. by right. }
    exists out. split_and!; [done| |].
    + intros layer kind t Hl Hkind Ht.
      destruct (decide (layer ∈ layers)) as [Hl'|Hl']; [by eapply Hin|].
      apply elem_of_cons in Hl as [->|?]; [|done].
      rewrite Hrest by (by left).
      destruct Hkind as [-> | ->]; simplify_eq.
      * by rewrite lookup_insert_eq.
      * rewrite lookup_insert_ne by done. by rewrite lookup_insert_eq.
    + intros layer kind Hk. rewrite Hrest.
      * rewrite !lookup_insert_ne; [done| |]; intros [= -> <-];
          destruct Hk as [Hk|[??]]; try done; apply Hk; left.
      * destruct Hk as [Hk|?]; [left|by right].
        intros ?. apply Hk. by right.
Qed.

(** X1. [_expand_batch_size]: for a batch size [n] that is a non-negative
    64-bit integer and a loaded structure that holds, for every layer
    [0 .. L-1], a hidden and a cell tensor of which [n] copies can be
    allocated, the result holds for each of them the same tensor repeated
    [n] times along a new first dimension (shape [n :: shape], the element
    list copied [n] times), and nothing else. *)
Theorem expand_batch_size_replicates sizes path st n :
  0 <= n < 2 ^ 63 ->
  (forall key, key ∈ state_keys (len sizes) ->
     exists t, st !! key = Some t /\ tensor_wf t /\
               n * numel (shape t) <= capacity max_numel) ->
  exists out,
    _expand_batch_size max_numel (init sizes path) st n = Ok out /\
    (forall key t, key ∈ state_keys (len sizes) -> st !! key = Some t ->
       out !! key = Some (replicated n t)) /\
    (forall key, is_Some (out !! key) <-> key ∈ state_keys (len sizes)).
Proof.
  intros Hn Hst. unfold _expand_batch_size, range. simpl.
  destruct (expand_batch_size_loop st n (seqZ 0 (len sizes)) ∅ Hn)
    as (out & Hout & Hin & Hrest).
  { intros layer kind Hl%elem_of_seqZ Hkind.
    apply (Hst (layer, kind)), elem_of_state_keys. simpl. split; [lia|done]. }
  exists out. split_and!; [done| |].
  - intros [layer kind] t [Hl Hkind]%elem_of_state_keys Ht. simpl in *.
    apply Hin; [apply elem_of_seqZ; lia|done|done].
  - intros [layer kind]. split.
    + intros Hsome. apply elem_of_state_keys. simpl.
      destruct (decide (layer ∈ seqZ 0 (len sizes))) as [Hl|Hl].
      * apply elem_of_seqZ in Hl.
        destruct (decide (kind = "hx"%string)); [split; [lia|by left]|].
        destruct (decide (kind = "cx"%string)); [split; [lia|by right]|].
        rewrite Hrest, lookup_empty in Hsome by (by right). by destruct Hsome.
      * rewrite Hrest, lookup_empty in Hsome by (by left). by destruct Hsome.
    + intros Hkey. destruct (Hst _ Hkey) as (t & Ht & _).
      rewrite (Hin layer kind t); [by eexists| | |done];
        apply elem_of_state_keys in Hkey as [Hl Hkind]; simpl in *;
        [apply elem_of_seqZ; lia|done].
Qed.

(** X2. With a file of initial states configured, [create] returns a value
    only for a model without layers, and then the empty dictionary:
    [_validate] wants as many entries as there are layers and two entries
    for every layer. *)
Theorem loaded_state_only_without_layers sizes path batch_size out :
  NoDup sizes.*1 ->
  create zero max_numel load_pickle (init sizes (Some path)) batch_size = Ok out ->
  sizes = [] /\ out = ∅.
Proof.
  intros Hnd. unfold create. simpl.
  destruct (load_pickle path) as [st|]; simpl; [|done].
  destruct (_validate (init sizes (Some path)) st) as [[]|] eqn:Hval; simpl; [|done].
  apply validate_accepts_no_layer in Hval as [-> ->]; [|done].
  unfold _expand_batch_size. simpl. by intros [= <-].
Qed.

(** X3. For a batch size and cell widths that are non-negative 64-bit
    integers, with tensors that can be allocated, [create_zero_state]
    returns exactly two entries per layer; with at least one layer its
    result therefore fails the first assertion of [_validate], which
    compares the number of entries with the number of layers. *)
Theorem zero_state_has_two_entries_per_layer sizes path batch_size :
  0 <= batch_size < 2 ^ 63 ->
  (forall layer, 0 <= layer < len sizes ->
     exists sz, oget layer sizes = Some sz /\ 0 <= c sz < 2 ^ 63 /\
                batch_size * c sz <= capacity max_numel) ->
  exists st,
    create_zero_state zero max_numel (init sizes path) batch_size = Ok st /\
    Z.of_nat (size st) = 2 * len sizes /\
    (sizes <> [] -> _validate (init sizes path) st = Raise AssertionError).
Proof.
  intros HB Hsizes. unfold create_zero_state, range. simpl.
  destruct (create_zero_state_loop zero max_numel sizes path batch_size
              (seqZ 0 (len sizes)) ∅ HB) as (st & Hst & Hin & Hrest).
  { intros layer Hl%elem_of_seqZ. apply Hsizes. lia. }
  exists st. split; [done|].
  assert (Z.of_nat (size st) = 2 * len sizes) as Hsize.
  { rewrite (size_of_keys st (state_keys (len sizes))).
    - apply length_state_keys. unfold len. lia.
    - apply state_keys_NoDup.
    - intros [layer kind]. rewrite elem_of_state_keys. simpl. split.
      + intros Hsome.
        destruct (decide (layer ∈ seqZ 0 (len sizes))) as [Hl|Hl].
        * apply elem_of_seqZ in Hl.
          destruct (decide (kind = "hx"%string)); [split; [lia|by left]|].
          destruct (decide (kind = "cx"%string)); [split; [lia|by right]|].
          rewrite Hrest, lookup_empty in Hsome by (by right). by destruct Hsome.
        * rewrite Hrest, lookup_empty in Hsome by (by left). by destruct Hsome.
      + intros [Hl Hkind]. destruct (Hsizes layer Hl) as (sz & Hsz & _).
        rewrite (Hin layer sz kind); [by eexists|apply elem_of_seqZ; lia|done|done]. }
  split; [done|]. intros Hne. apply validate_count.
  rewrite Hsize. unfold len. destruct sizes; [done|]. simpl. lia.
Qed.

(** X4. [create_zero_state] reads [sizes[layer]] for the layers
    [0 .. L-1]: when [layer] is the first of these numbers that is not a key
    of the size specification, and the tensors of the layers before it can
    be built (the batch size and their cell widths are non-negative 64-bit
    integers, the tensors can be allocated), it raises [KeyError]. *)
Theorem create_zero_state_missing_layer sizes path batch_size layer :
  0 <= batch_size < 2 ^ 63 -> 0 <= layer < len sizes ->
  oget layer sizes = None ->
  (forall layer', 0 <= layer' < layer ->
     exists sz, oget layer' sizes = Some sz /\ 0 <= c sz < 2 ^ 63 /\
                batch_size * c sz <= capacity max_numel) ->
  create_zero_state zero max_numel (init sizes path) batch_size = Raise KeyError.
Proof.
  intros HB Hlayer Hnone Hbelow. unfold create_zero_state, range, len in *. simpl.
  replace (Z.of_nat (length sizes))
    with (layer + (Z.of_nat (length sizes) - layer)) by lia.
  rewrite seqZ_app, for_fold_app by lia.
  destruct (create_zero_state_loop zero max_numel sizes path batch_size
              (seqZ 0 layer) ∅ HB) as (st & -> & _).
  { intros layer' Hl%elem_of_seqZ. apply Hbelow. lia. }
  rewrite Z.add_0_l, seqZ_cons by lia. simpl.
  unfold create_zero_state_body, getitem. simpl. by rewrite Hnone.
Qed.

End more_facts.

Lemma expand_batch_size_replicates_witness :
  exists out,
    _expand_batch_size Fixtures.million
                       (init Fixtures.sizes1 (Some "states.pickle"%string))
                       Fixtures.unbatched1 2 = Ok out /\
    (forall key t, key ∈ state_keys (len Fixtures.sizes1) ->
       Fixtures.unbatched1 !! key = Some t ->
       out !! key = Some (replicated 2 t)) /\
    (forall key, is_Some (out !! key) <-> key ∈ state_keys (len Fixtures.sizes1)).
Proof.
  apply (expand_batch_size_replicates Fixtures.million Fixtures.sizes1
           (Some "states.pickle"%string) Fixtures.unbatched1 2); [lia|].
  intros [layer kind] [Hl Hkind]%elem_of_state_keys. simpl in *.
  change (len Fixtures.sizes1) with 1 in Hl. assert (layer = 0) as -> by lia.
  destruct Hkind as [-> | ->]; eexists;
    (split; [reflexivity|split; [split; [repeat constructor; lia|reflexivity]
                                |by vm_compute]]).
Defined.

Lemma loaded_state_only_without_layers_witness :
  ([] : SizeDict) = [] /\
  (∅ : gmap (Z * string) (Tensor (scalar := Z))) = ∅.
Proof.
  apply (loaded_state_only_without_layers 0 Fixtures.million Fixtures.load_empty []
           "states.pickle"%string 1 ∅).
  - constructor.
  - reflexivity.
Defined.

Lemma zero_state_has_two_entries_per_layer_witness :
  exists st,
    create_zero_state 0 Fixtures.million (init Fixtures.sizes2 None) 2 = Ok st /\
    Z.of_nat (size st) = 2 * len Fixtures.sizes2 /\
    (Fixtures.sizes2 <> [] -> _validate (init Fixtures.sizes2 None) st = Raise AssertionError).
Proof.
  apply (zero_state_has_two_entries_per_layer 0 Fixtures.million Fixtures.sizes2 None 2);
    [lia|].
  intros layer Hlayer. change (len Fixtures.sizes2) with 2 in Hlayer.
  destruct (decide (layer = 0)) as [->|Hne].
  - eexists. split; [reflexivity|]. split; [simpl; lia|by vm_compute].
  - assert (layer = 1) as -> by lia.
    eexists. split; [reflexivity|]. split; [simpl; lia|by vm_compute].
Defined.

Lemma create_zero_state_missing_layer_witness :
  create_zero_state 0 Fixtures.million (init Fixtures.sizes_from_1 None) 2
  = Raise KeyError.
Proof.
  apply (create_zero_state_missing_layer 0 Fixtures.million Fixtures.sizes_from_1 None 2 0);
    [lia|vm_compute; split; congruence|reflexivity|lia].
Defined.

End InitStatesFacts.

(** ** The agreement corpora *)

Module LinzenFacts.
Import Py PyFacts Linzen.

Lemma index_range_take_drop {A} (l : list A) (a n : nat) :
  omap (fun i => l !! i) (seq a n) = take n (drop a l).
Proof.
  revert a. induction n as [|n IH]; intros a; simpl; [done|].
  rewrite IH. destruct (l !! a) as [x|] eqn:Hx.
  - rewrite (drop_S _ _ _ Hx). done.
  - apply lookup_ge_None in Hx.
    rewrite !drop_ge by lia. by rewrite take_nil.
Qed.

Lemma join_empty_sep (l : list str) : join [] l = concat l.
Proof.
  induction l as [|x [|y l] IH]; simpl in *; [done|by rewrite app_nil_r|].
  by rewrite IH.
Qed.

Lemma pos_mapping_get (t : str) :
  default [] (pos_mapping !! t) = match tag_code t with Some ch => [ch] | None => [] end.
Proof.
  unfold pos_mapping, tag_code.
  destruct (decide (t = lit "NNS")) as [->|Hnns]; [done|].
  destruct (decide (t = lit "NN")) as [->|Hnn]; [done|].
  rewrite !lookup_insert_ne by done. by rewrite lookup_empty.
Qed.

Lemma join_pos_mapping (tags : list str) :
  join [] ((fun t => default [] (pos_mapping !! t)) <$> tags) = condition_of_tags tags.
Proof.
  rewrite join_empty_sep. unfold condition_of_tags.
  induction tags as [|t tags IH]; csimpl; [done|].
  rewrite IH, pos_mapping_get. by destruct (tag_code t).
Qed.

(** C1. For an item whose subject index [lo >= 1] and verb index [hi >= 0]
    are decimal integers, the condition is [condition_of_tags] of the tags
    of the split POS sentence at the positions [lo - 1] (inclusive) to [hi]
    (exclusive): [NNS] gives "P", [NN] gives "S", other tags are dropped,
    and the codes are concatenated in order.  The tags DT NNS IN DT NN give
    "PS". *)
Theorem item_to_sva_condition_spec (item : RawItem) (lo hi : Z) :
  int (subj_index item) = Ok lo -> int (verb_index item) = Ok hi ->
  1 <= lo -> 0 <= hi ->
  item_to_sva_condition item
  = Ok (condition_of_tags
          (index_range (split (pos_sentence item)) (Z.to_nat (lo - 1)) (Z.to_nat hi)))
  /\ condition_of_tags (lit <$> ["DT"; "NNS"; "IN"; "DT"; "NN"]%string) = lit "PS".
Proof.
  intros Hlo Hhi Hlo1 Hhi0. split; [|reflexivity].
  unfold item_to_sva_condition. rewrite Hlo, Hhi. simpl.
  rewrite join_pos_mapping, slice_nonneg by lia.
  unfold index_range. by rewrite index_range_take_drop.
Qed.

Lemma item_to_sva_condition_spec_witness :
  item_to_sva_condition Fixtures.men_item
  = Ok (condition_of_tags
          (index_range (split (pos_sentence Fixtures.men_item))
                       (Z.to_nat (2 - 1)) (Z.to_nat 6)))
  /\ condition_of_tags (lit <$> ["DT"; "NNS"; "IN"; "DT"; "NN"]%string) = lit "PS".
Proof.
  apply (item_to_sva_condition_spec Fixtures.men_item 2 6);
    [reflexivity|reflexivity|lia|lia].
Defined.

(** The sentence of the docstring is classified as "PS". *)
Example men_item_condition :
  item_to_sva_condition Fixtures.men_item = Ok (lit "PS").
Proof. reflexivity. Qed.

Section examples.
Context (unidecode : str -> str).

Lemma needs_unidecode_spec (x : str) :
  needs_unidecode x = true <-> exists ch, ch ∈ x /\ (255 < ch)%N.
Proof.
  unfold needs_unidecode. rewrite negb_true_iff, <- not_true_iff_false.
  rewrite forallb_forall. split.
  - intros Hnot. induction x as [|ch x IH].
    + destruct Hnot. intros ? [].
    + destruct (N.ltb_spec ch 256) as [Hlt|Hge].
      * destruct IH as (ch' & Hin & Hch').
        -- intros Hall. apply Hnot. intros y [<-|Hy]; [by apply N.ltb_lt|auto].
        -- exists ch'. split; [by right|done].
      * exists ch. split; [left|lia].
  - intros (ch & Hin & Hch) Hall.
    apply list_elem_of_In, Hall, N.ltb_lt in Hin. lia.
Qed.

(** C5, as the code has it.  The original sentence is transliterated before
    splitting if and only if some character's code point exceeds 255 (the
    Latin-1 range, not the ASCII range); for an item whose verb index
    [v >= 1] is a decimal integer and whose verb is in the inflection table,
    the context tokens are the first [v - 1] tokens of the split sentence,
    those at the positions [0 .. v - 2]. *)
Theorem item_to_example_context (item : RawItem) (verb_inflections : gmap str str)
    (v : Z) (opposite_verb : str) :
  int (verb_index item) = Ok v -> 1 <= v ->
  verb_inflections !! verb item = Some opposite_verb ->
  (needs_unidecode (orig_sentence item) = true
   <-> exists ch, ch ∈ orig_sentence item /\ (255 < ch)%N) /\
  item_to_example unidecode item verb_inflections
  = Ok (Some {| sen := take (Z.to_nat (v - 1))
                         (split (if needs_unidecode (orig_sentence item)
                                 then unidecode (orig_sentence item)
                                 else orig_sentence item));
                token := verb item;
                wrong_token := opposite_verb |}).
Proof.
  intros Hv Hv1 Hverb. split; [apply needs_unidecode_spec|].
  unfold item_to_example. rewrite Hv. simpl. rewrite Hverb.
  by rewrite slice_prefix by lia.
Qed.

End examples.

Lemma item_to_example_context_witness :
  (needs_unidecode (orig_sentence Fixtures.men_item) = true
   <-> exists ch, ch ∈ orig_sentence Fixtures.men_item /\ (255 < ch)%N) /\
  item_to_example Fixtures.fold_e_acute Fixtures.men_item Fixtures.small_table
  = Ok (Some {| sen := take (Z.to_nat (6 - 1))
                         (split (if needs_unidecode (orig_sentence Fixtures.men_item)
                                 then Fixtures.fold_e_acute (orig_sentence Fixtures.men_item)
                                 else orig_sentence Fixtures.men_item));
                token := verb Fixtures.men_item;
                wrong_token := lit "walks" |}).
Proof.
  apply (item_to_example_context Fixtures.fold_e_acute Fixtures.men_item
           Fixtures.small_table 6 (lit "walks"));
    [reflexivity|lia|reflexivity].
Defined.

(** C5 as stated fails: the sentence of [cafe_item] has a character beyond
    ASCII (code point 233), yet it is not transliterated, and the context
    keeps that character. *)
Lemma latin1_not_transliterated :
  (exists ch, ch ∈ orig_sentence Fixtures.cafe_item /\ (127 < ch)%N) /\
  needs_unidecode (orig_sentence Fixtures.cafe_item) = false /\
  item_to_example Fixtures.fold_e_acute Fixtures.cafe_item Fixtures.small_table
  = Ok (Some {| sen := [lit "the"; lit "caf" ++ [233%N]];
                token := lit "opens"; wrong_token := lit "open" |}) /\
  split (Fixtures.fold_e_acute (orig_sentence Fixtures.cafe_item))
  = [lit "the"; lit "cafe"; lit "opens"].
Proof.
  split_and!; try reflexivity.
  exists 233%N. split; [|done].
  apply list_elem_of_In. vm_compute. tauto.
Qed.

(** *** Reading the corpus file *)

Lemma raw_body_ok subtasks raw0 row raw1 :
  create_raw_corpora_body subtasks raw0 row = Ok raw1 ->
  exists item c,
    parse_row row = Ok item /\ item_to_sva_condition item = Ok c /\
    raw1 = if bool_decide (c ∈ subtasks)
           then oset c (default [] (oget c raw0) ++ [item]) raw0
           else raw0.
Proof.
  unfold create_raw_corpora_body.
  destruct (parse_row row) as [item|] eqn:Hrow; simpl; [|done].
  destruct (item_to_sva_condition item) as [c|] eqn:Hc; simpl; [|done].
  intros Hraw. exists item, c. split_and!; [done|done|].
  case_bool_decide; by simplify_eq.
Qed.

Lemma retained_cons c row rows item c0 :
  parse_row row = Ok item -> item_to_sva_condition item = Ok c0 ->
  retained c (row :: rows)
  = if decide (c0 = c) then item :: retained c rows else retained c rows.
Proof.
  intros Hrow Hc0. unfold retained, parsed_rows. simpl. rewrite Hrow.
  rewrite filter_cons. rewrite Hc0.
  destruct (decide (c0 = c)) as [->|Hne].
  - by rewrite decide_True.
  - rewrite decide_False; [done|congruence].
Qed.

Lemma raw_loop subtasks rows raw0 raw :
  for_fold rows (create_raw_corpora_body subtasks) raw0 = Ok raw ->
  Forall row_ok rows /\
  (NoDup raw0.*1 -> NoDup raw.*1) /\
  forall c, oget c raw =
    if bool_decide (c ∈ subtasks)
    then match retained c rows with
         | [] => oget c raw0
         | new => Some (default [] (oget c raw0) ++ new)
         end
    else oget c raw0.
Proof.
  revert raw0. induction rows as [|row rows IH]; intros raw0; simpl.
  - intros [= <-]. split_and!; [constructor|done|].
    intros c. by case_bool_decide.
  - destruct (create_raw_corpora_body subtasks raw0 row) as [raw1|] eqn:Hbody;
      [|done].
    apply raw_body_ok in Hbody as (item & c0 & Hrow & Hc0 & ->).
    intros (Hok & Hnodup & Hget)%IH. split_and!.
    + constructor; [by exists item, c0|done].
    + intros Hnd. apply Hnodup. case_bool_decide; [by apply oset_NoDup|done].
    + intros c. rewrite Hget, (retained_cons c row rows item c0) by done.
      destruct (decide (c0 = c)) as [->|Hne].
      * destruct (decide (c ∈ subtasks)) as [Hin|Hin];
          [rewrite !(bool_decide_eq_true_2 _ Hin)
          |by rewrite !(bool_decide_eq_false_2 _ Hin)].
        rewrite oget_oset_eq. simpl.
        destruct (retained c rows) as [|x new]; [done|].
        by rewrite <- app_assoc.
      * assert (oget c (if bool_decide (c0 ∈ subtasks)
                        then oset c0 (default [] (oget c0 raw0) ++ [item]) raw0
                        else raw0) = oget c raw0) as ->; [|done].
        case_bool_decide; [by rewrite oget_oset_ne|done].
Qed.

(** What [create_raw_corpora] returns: under each requested condition that
    classifies some row, the items of these rows in the order of the file;
    no other key. *)
Lemma create_raw_corpora_spec fs corpus_path subtasks raw :
  create_raw_corpora fs corpus_path subtasks = Ok raw ->
  exists header rows,
    fs (path_join corpus_path (lit "agr_50_mostcommon_10K.tsv")) = Some (header :: rows) /\
    Forall row_ok rows /\ NoDup raw.*1 /\
    forall c, oget c raw =
      if bool_decide (c ∈ subtasks /\ retained c rows <> [])
      then Some (retained c rows) else None.
Proof.
  unfold create_raw_corpora, open, next.
  destruct (fs _) as [[|header rows]|] eqn:Hfs; simpl; [done| |done].
  intros (Hok & Hnodup & Hget)%raw_loop. exists header, rows.
  split_and!; [done|done|apply Hnodup; constructor|].
  intros c. rewrite Hget. simpl.
  destruct (decide (c ∈ subtasks)) as [Hin|Hin].
  - rewrite (bool_decide_eq_true_2 _ Hin).
    destruct (retained c rows) as [|x new] eqn:Hret.
    + rewrite bool_decide_eq_false_2; [done|]. intros [_ ?]. done.
    + rewrite bool_decide_eq_true_2; [done|]. done.
  - rewrite (bool_decide_eq_false_2 _ Hin).
    rewrite bool_decide_eq_false_2; [done|]. intros [? _]. done.
Qed.

Lemma sva_condition_verb_index item c :
  item_to_sva_condition item = Ok c -> exists v, int (verb_index item) = Ok v.
Proof.
  unfold item_to_sva_condition.
  destruct (int (subj_index item)); simpl; [|done].
  destruct (int (verb_index item)) as [v|]; simpl; [eauto|done].
Qed.

Lemma retained_verb_index c rows item :
  item ∈ retained c rows -> exists v, int (verb_index item) = Ok v.
Proof.
  unfold retained. intros [Hc _]%list_elem_of_filter.
  by eapply sva_condition_verb_index.
Qed.

(** *** Building the corpora *)

Section build.
Context (fs : filesystem) (unidecode : str -> str) (plural_verb : str -> str).
Implicit Types (self : LinzenDownstream) (vi : gmap str str).
Implicit Types (items : list RawItem) (cap : option Z).

Lemma item_to_example_total item vi v :
  int (verb_index item) = Ok v ->
  item_to_example unidecode item vi = Ok (example_of unidecode vi item).
Proof.
  intros Hv. unfold example_of, item_to_example. rewrite Hv. simpl.
  by destruct (vi !! verb item).
Qed.

Lemma example_of_is_Some item vi v :
  int (verb_index item) = Ok v ->
  is_Some (example_of unidecode vi item) <-> is_Some (vi !! verb item).
Proof.
  intros Hv. unfold example_of, item_to_example. rewrite Hv. simpl.
  destruct (vi !! verb item); split; intros [? ?]; by eauto.
Qed.

Lemma list_comp_ok {A B} (f : A -> res B) (g : A -> B) (l : list A) :
  (forall x, x ∈ l -> f x = Ok (g x)) -> list_comp f l = Ok (g <$> l).
Proof.
  induction l as [|x l IH]; intros Hf; simpl; [done|].
  rewrite Hf by left. rewrite IH; [done|]. intros y Hy. apply Hf. by right.
Qed.

Lemma omap_id_fmap {A B} (g : A -> option B) (l : list A) :
  omap id (g <$> l) = omap g l.
Proof. induction l as [|x l IH]; csimpl; [done|]. by rewrite IH. Qed.

Lemma create_corpus_ok self items vi cap :
  (forall item, item ∈ items -> exists v, int (verb_index item) = Ok v) ->
  create_corpus unidecode self items vi cap
  = Ok (corpus_of unidecode self vi cap items).
Proof.
  intros Hitems. unfold create_corpus.
  rewrite (list_comp_ok _ (example_of unidecode vi)).
  - simpl. rewrite omap_id_fmap. by destruct cap.
  - intros item (v & Hv)%Hitems. by eapply item_to_example_total.
Qed.

Lemma find_corpus_oset (corpora : DownstreamCorpora) n0 c0 corpus n c :
  find_corpus (oset n0 (oset c0 corpus (default [] (oget n0 corpora))) corpora) n c
  = if bool_decide (n = n0 /\ c = c0) then Some corpus else find_corpus corpora n c.
Proof.
  unfold find_corpus. destruct (decide (n = n0)) as [->|Hn].
  - rewrite oget_oset_eq. simpl. destruct (decide (c = c0)) as [->|Hc].
    + rewrite bool_decide_eq_true_2 by done. apply oget_oset_eq.
    + rewrite bool_decide_eq_false_2 by (intros [_ ?]; done).
      rewrite oget_oset_ne by done. by destruct (oget n0 corpora).
  - rewrite bool_decide_eq_false_2 by (intros [? _]; done).
    by rewrite oget_oset_ne.
Qed.

(** The loop of [create_corpora] over the conditions of [raw]. *)
Lemma corpora_loop self vi cap (raw : list (str * list RawItem)) corpora0 :
  NoDup raw.*1 ->
  (forall c items item, (c, items) ∈ raw -> item ∈ items ->
     exists v, int (verb_index item) = Ok v) ->
  exists out,
    for_fold raw (create_corpora_body unidecode self vi cap) corpora0 = Ok out /\
    forall n c, find_corpus out n c =
      match oget c raw with
      | Some items =>
          if decide (n = str_of_int (len c))
          then Some (corpus_of unidecode self vi cap items)
          else find_corpus corpora0 n c
      | None => find_corpus corpora0 n c
      end.
Proof.
  revert corpora0. induction raw as [|[c0 items0] raw IH]; intros corpora0 Hnd Hraw.
  - exists corpora0. by split.
  - simpl. rewrite create_corpus_ok by (intros item Hitem; eapply Hraw; [left|done]).
    simpl. apply NoDup_cons in Hnd as [Hc0 Hnd].
    destruct (IH (oset (str_of_int (len c0))
                       (oset c0 (corpus_of unidecode self vi cap items0)
                             (default [] (oget (str_of_int (len c0)) corpora0)))
                       corpora0) Hnd) as (out & Hout & Hfind).
    { intros c items item Hin. eapply Hraw. by right. }
    exists out. split; [done|]. intros n c. rewrite Hfind, find_corpus_oset.
    destruct (decide (c = c0)) as [->|Hc].
    + simpl in Hc0. apply oget_None in Hc0. rewrite Hc0.
      destruct (decide (n = str_of_int (len c0))) as [->|Hn].
      * by rewrite bool_decide_eq_true_2.
      * by rewrite bool_decide_eq_false_2 by (intros [? _]; done).
    + rewrite bool_decide_eq_false_2 by (intros [_ ?]; done). done.
Qed.

(** What a successful build returns.  Under the key of its length, every
    requested condition that classifies some row of the corpus file has the
    corpus of the examples of these rows, in the order of the file and
    capped; there is no other entry. *)
Lemma create_corpora_spec self corpus_path subtasks cap out :
  create_corpora fs unidecode plural_verb self corpus_path subtasks cap = Ok out ->
  exists header rows vi,
    fs (path_join corpus_path (lit "agr_50_mostcommon_10K.tsv")) = Some (header :: rows) /\
    Forall row_ok rows /\
    create_verb_inflections fs plural_verb self corpus_path = Ok vi /\
    forall n c, find_corpus out n c =
      if bool_decide (n = str_of_int (len c) /\ c ∈ subtasks /\ retained c rows <> [])
      then Some (corpus_of unidecode self vi cap (retained c rows))
      else None.
Proof.
  unfold create_corpora.
  destruct (create_raw_corpora fs corpus_path subtasks) as [raw|] eqn:Hraw;
    simpl; [|done].
  destruct (create_verb_inflections fs plural_verb self corpus_path) as [vi|];
    simpl; [|done].
  apply create_raw_corpora_spec in Hraw as (header & rows & Hfs & Hok & Hnd & Hget).
  destruct (corpora_loop self vi cap raw [] Hnd) as (out' & Hout' & Hfind).
  { intros c items item Hin Hitem.
    apply (oget_elem_NoDup _ _ _ Hnd) in Hin. rewrite Hget in Hin.
    case_bool_decide; [|done]. simplify_eq.
    by eapply retained_verb_index. }
  rewrite Hout'. intros [= <-].
  exists header, rows, vi. split_and!; [done|done|done|].
  intros n c. rewrite Hfind, Hget.
  destruct (decide (c ∈ subtasks /\ retained c rows <> [])) as [Hc|Hc].
  - rewrite (bool_decide_eq_true_2 _ Hc).
    destruct (decide (n = str_of_int (len c))) as [Hn|Hn].
    + rewrite bool_decide_eq_true_2; [done|tauto].
    + rewrite bool_decide_eq_false_2; [done|tauto].
  - rewrite (bool_decide_eq_false_2 _ Hc).
    rewrite bool_decide_eq_false_2; [done|tauto].
Qed.

Lemma raw_loop_total subtasks rows raw0 :
  Forall row_ok rows ->
  exists raw, for_fold rows (create_raw_corpora_body subtasks) raw0 = Ok raw.
Proof.
  intros Hrows. revert raw0.
  induction Hrows as [|row rows (item & c & Hrow & Hc) _ IH]; intros raw0; simpl.
  - by eexists.
  - unfold create_raw_corpora_body at 1. rewrite Hrow. simpl. rewrite Hc. simpl.
    case_bool_decide; apply IH.
Qed.

(** The build succeeds as soon as its two inputs are read, whatever the cap. *)
Lemma create_corpora_total self corpus_path subtasks cap header rows vi :
  fs (path_join corpus_path (lit "agr_50_mostcommon_10K.tsv")) = Some (header :: rows) ->
  Forall row_ok rows ->
  create_verb_inflections fs plural_verb self corpus_path = Ok vi ->
  exists out,
    create_corpora fs unidecode plural_verb self corpus_path subtasks cap = Ok out.
Proof.
  intros Hfs Hrows Hvi. unfold create_corpora.
  destruct (create_raw_corpora fs corpus_path subtasks) as [raw|e] eqn:Hraw.
  - simpl. rewrite Hvi. simpl.
    apply create_raw_corpora_spec in Hraw as (header' & rows' & Hfs' & _ & Hnd & Hget).
    destruct (corpora_loop self vi cap raw [] Hnd) as (out & Hout & _); [|by eauto].
    intros c items item Hin Hitem.
    apply (oget_elem_NoDup _ _ _ Hnd) in Hin. rewrite Hget in Hin.
    case_bool_decide; [|done]. simplify_eq. by eapply retained_verb_index.
  - exfalso. unfold create_raw_corpora, open, next in Hraw.
    rewrite Hfs in Hraw. simpl in Hraw.
    destruct (raw_loop_total subtasks rows [] Hrows) as [raw Hraw'].
    by rewrite Hraw' in Hraw.
Qed.

Lemma surviving_length vi items :
  (forall item, item ∈ items -> exists v, int (verb_index item) = Ok v) ->
  (length (surviving unidecode vi items)
   = length items - length (filter (fun item => vi !! verb item = None) items))%nat.
Proof.
  unfold surviving. induction items as [|item items IH]; intros Hitems; [done|].
  destruct (Hitems item) as [v Hv]; [left|].
  pose proof (example_of_is_Some item vi v Hv) as Hsome.
  pose proof (length_filter (fun item => vi !! verb item = None) items) as Hle.
  assert (forall item, item ∈ items -> exists v, int (verb_index item) = Ok v)
    as HIH%IH by (intros ??; apply Hitems; by right).
  rewrite filter_cons. csimpl.
  destruct (vi !! verb item) as [o|] eqn:Hverb.
  - rewrite decide_False by done.
    destruct (example_of unidecode vi item); [simpl; lia|].
    destruct (proj2 Hsome) as [? ?]; [by eexists|done].
  - rewrite decide_True by done.
    destruct (example_of unidecode vi item); [|simpl; lia].
    destruct (proj1 Hsome) as [? ?]; [by eexists|done].
Qed.

(** C6, as the code has it.  In the output of a build every condition is
    nested under the key that is the decimal string of its own length; and
    a condition is in the output exactly when it is requested and at least
    one row of the corpus file is classified to it.  So a requested
    condition with no retained row is absent, while one whose retained rows
    all lose their example is present (with an empty corpus). *)
Theorem grouping_invariant self corpus_path subtasks cap out :
  create_corpora fs unidecode plural_verb self corpus_path subtasks cap = Ok out ->
  (forall n inner c corpus,
     oget n out = Some inner -> oget c inner = Some corpus ->
     n = str_of_int (len c)) /\
  exists header rows,
    fs (path_join corpus_path (lit "agr_50_mostcommon_10K.tsv")) = Some (header :: rows) /\
    forall c,
      (exists n inner, oget n out = Some inner /\ is_Some (oget c inner))
      <-> c ∈ subtasks /\ retained c rows <> [].
Proof.
  intros (header & rows & vi & Hfs & _ & _ & Hfind)%create_corpora_spec.
  assert (forall n inner c corpus,
            oget n out = Some inner -> oget c inner = Some corpus ->
            n = str_of_int (len c) /\ c ∈ subtasks /\ retained c rows <> []) as Hin.
  { intros n inner c corpus Hn Hc. specialize (Hfind n c).
    unfold find_corpus in Hfind. rewrite Hn in Hfind. simpl in Hfind.
    rewrite Hc in Hfind. by case_bool_decide. }
  split; [intros n inner c corpus Hn Hc; by eapply Hin|].
  exists header, rows. split; [done|]. intros c. split.
  - intros (n & inner & Hn & [corpus Hc]). by eapply Hin.
  - intros Hc. specialize (Hfind (str_of_int (len c)) c).
    rewrite bool_decide_eq_true_2 in Hfind by tauto.
    unfold find_corpus in Hfind.
    destruct (oget (str_of_int (len c)) out) as [inner|] eqn:Hn; [|done].
    exists (str_of_int (len c)), inner. split; [done|]. simpl in Hfind. by eexists.
Qed.

(** C7. With a cap [N >= 0], the corpus of every condition of the output
    holds the first [N] of the examples that survive the inflection filter
    for that condition, in the order of the rows of the corpus file; their
    number is [min N available]. *)
Theorem cap_keeps_prefix self corpus_path subtasks (N : Z) out :
  0 <= N ->
  create_corpora fs unidecode plural_verb self corpus_path subtasks (Some N) = Ok out ->
  exists header rows vi,
    fs (path_join corpus_path (lit "agr_50_mostcommon_10K.tsv")) = Some (header :: rows) /\
    create_verb_inflections fs plural_verb self corpus_path = Ok vi /\
    forall n c corpus,
      find_corpus out n c = Some corpus ->
      examples corpus = take (Z.to_nat N) (surviving unidecode vi (retained c rows)) /\
      len (examples corpus) = Z.min N (len (surviving unidecode vi (retained c rows))).
Proof.
  intros HN (header & rows & vi & Hfs & _ & Hvi & Hfind)%create_corpora_spec.
  exists header, rows, vi. split_and!; [done|done|].
  intros n c corpus Hc. rewrite Hfind in Hc. case_bool_decide; [|done].
  simplify_eq. unfold corpus_of, cap_examples, len. simpl.
  rewrite slice_prefix by done. split; [done|].
  rewrite length_take. lia.
Qed.

(** C9. In a build without cap, an item retained for a condition whose verb
    has no entry in the inflection table yields no example and raises
    nothing, and the corpus of every condition has as many examples as the
    condition has retained items, less those without an entry. *)
Theorem missing_inflection_dropped self corpus_path subtasks out :
  create_corpora fs unidecode plural_verb self corpus_path subtasks None = Ok out ->
  exists header rows vi,
    fs (path_join corpus_path (lit "agr_50_mostcommon_10K.tsv")) = Some (header :: rows) /\
    create_verb_inflections fs plural_verb self corpus_path = Ok vi /\
    (forall c item,
       item ∈ retained c rows -> vi !! verb item = None ->
       item_to_example unidecode item vi = Ok None) /\
    forall n c corpus,
      find_corpus out n c = Some corpus ->
      (length (examples corpus)
       = length (retained c rows)
         - length (filter (fun item => vi !! verb item = None) (retained c rows)))%nat.
Proof.
  intros (header & rows & vi & Hfs & _ & Hvi & Hfind)%create_corpora_spec.
  exists header, rows, vi. split_and!; [done|done| |].
  - intros c item [v Hv]%retained_verb_index Hverb.
    unfold item_to_example. rewrite Hv. simpl. by rewrite Hverb.
  - intros n c corpus Hc. rewrite Hfind in Hc. case_bool_decide; [|done].
    simplify_eq. simpl. apply surviving_length.
    intros item. apply retained_verb_index.
Qed.



End build.

(** *** The statements on the small corpus *)

Lemma grouping_invariant_witness :
  (forall n inner c corpus,
     oget n Fixtures.built_uncapped = Some inner -> oget c inner = Some corpus ->
     n = str_of_int (len c)) /\
  exists header rows,
    Fixtures.small_fs (path_join (lit "data") (lit "agr_50_mostcommon_10K.tsv"))
    = Some (header :: rows) /\
    forall c,
      (exists n inner, oget n Fixtures.built_uncapped = Some inner /\ is_Some (oget c inner))
      <-> c ∈ Fixtures.requested /\ retained c rows <> [].
Proof.
  apply (grouping_invariant Fixtures.small_fs Fixtures.fold_e_acute Fixtures.plural_of
           Fixtures.task (lit "data") Fixtures.requested None Fixtures.built_uncapped).
  vm_compute. reflexivity.
Defined.

(** C6 as stated fails: on the small corpus the requested condition "P" has
    one retained row and no surviving example (its verb "zork" has no
    inflection pair), and the output holds it with an empty corpus. *)
Lemma condition_without_examples_is_present :
  exists out inner corpus,
    create_corpora Fixtures.small_fs Fixtures.fold_e_acute Fixtures.plural_of
                   Fixtures.task (lit "data") Fixtures.requested None = Ok out /\
    lit "P" ∈ Fixtures.requested /\
    oget (lit "1") out = Some inner /\
    oget (lit "P") inner = Some corpus /\
    examples corpus = [].
Proof.
  exists Fixtures.built_uncapped. do 2 eexists.
  split_and!; [vm_compute; reflexivity| |reflexivity|reflexivity|reflexivity].
  unfold Fixtures.requested. set_solver.
Qed.

Lemma cap_keeps_prefix_witness :
  exists header rows vi,
    Fixtures.small_fs (path_join (lit "data") (lit "agr_50_mostcommon_10K.tsv"))
    = Some (header :: rows) /\
    create_verb_inflections Fixtures.small_fs Fixtures.plural_of Fixtures.task (lit "data")
    = Ok vi /\
    forall n c corpus,
      find_corpus Fixtures.built_cap1 n c = Some corpus ->
      examples corpus
      = take (Z.to_nat 1) (surviving Fixtures.fold_e_acute vi (retained c rows)) /\
      len (examples corpus)
      = Z.min 1 (len (surviving Fixtures.fold_e_acute vi (retained c rows))).
Proof.
  apply (cap_keeps_prefix Fixtures.small_fs Fixtures.fold_e_acute Fixtures.plural_of
           Fixtures.task (lit "data") Fixtures.requested 1 Fixtures.built_cap1);
    [lia|vm_compute; reflexivity].
Defined.

(** On the small corpus the condition "S" has two surviving examples, of
    which the cap 1 keeps the first. *)
Example cap1_S :
  (length <$> (examples <$> find_corpus Fixtures.built_uncapped (lit "1") (lit "S")))
  = Some 2%nat /\
  (examples <$> find_corpus Fixtures.built_cap1 (lit "1") (lit "S"))
  = (take 1 <$> (examples <$> find_corpus Fixtures.built_uncapped (lit "1") (lit "S"))).
Proof. split; reflexivity. Qed.

Lemma missing_inflection_dropped_witness :
  exists header rows vi,
    Fixtures.small_fs (path_join (lit "data") (lit "agr_50_mostcommon_10K.tsv"))
    = Some (header :: rows) /\
    create_verb_inflections Fixtures.small_fs Fixtures.plural_of Fixtures.task (lit "data")
    = Ok vi /\
    (forall c item,
       item ∈ retained c rows -> vi !! verb item = None ->
       item_to_example Fixtures.fold_e_acute item vi = Ok None) /\
    forall n c corpus,
      find_corpus Fixtures.built_uncapped n c = Some corpus ->
      (length (examples corpus)
       = length (retained c rows)
         - length (filter (fun item => vi !! verb item = None) (retained c rows)))%nat.
Proof.
  apply (missing_inflection_dropped Fixtures.small_fs Fixtures.fold_e_acute
           Fixtures.plural_of Fixtures.task (lit "data") Fixtures.requested
           Fixtures.built_uncapped).
  vm_compute. reflexivity.
Defined.


(** *** Rows with a wrong number of fields *)

Lemma RawItem_new_arity (args : list str) :
  length args <> 18%nat -> RawItem_new args = Raise TypeError.
Proof.
  intros Hlen. unfold RawItem_new.
  do 19 (destruct args as [|? args]; [done|]); done.
Qed.

Lemma raw_loop_malformed subtasks pre bad post raw0 :
  length (split_on 9 (strip bad)) <> 18%nat ->
  (exists e, for_fold (pre ++ bad :: post) (create_raw_corpora_body subtasks) raw0
             = Raise e) /\
  (Forall row_ok pre ->
   for_fold (pre ++ bad :: post) (create_raw_corpora_body subtasks) raw0
   = Raise TypeError).
Proof.
  intros Hbad. rewrite for_fold_app.
  assert (forall raw1, for_fold (bad :: post) (create_raw_corpora_body subtasks) raw1
                       = Raise TypeError) as Hrest.
  { intros raw1. simpl. unfold create_raw_corpora_body, parse_row.
    by rewrite RawItem_new_arity. }
  split.
  - destruct (for_fold pre _ raw0); [rewrite Hrest|]; by eexists.
  - intros [raw1 ->]%(raw_loop_total subtasks _ raw0). apply Hrest.
Qed.

Section malformed.
Context (fs : filesystem) (unidecode : str -> str) (plural_verb : str -> str).

(** C3, as the code has it.  If some row after the header, once stripped of
    the whitespace around it, does not split on tabs into exactly 18 fields,
    the build fails: with the [TypeError] of the [RawItem] constructor (the
    format error of the documentation) when every row before it is
    well-formed, and otherwise with the error of an earlier row. *)
Theorem malformed_row_fails (self : LinzenDownstream) corpus_path subtasks cap
    header pre bad post :
  fs (path_join corpus_path (lit "agr_50_mostcommon_10K.tsv"))
  = Some (header :: pre ++ bad :: post) ->
  length (split_on 9 (strip bad)) <> 18%nat ->
  (exists e, initialize fs unidecode plural_verb self corpus_path subtasks cap
             = Raise e) /\
  (Forall row_ok pre ->
   initialize fs unidecode plural_verb self corpus_path subtasks cap
   = Raise TypeError).
Proof.
  intros Hfs Hbad.
  unfold initialize, create_corpora, create_raw_corpora, open, next.
  rewrite Hfs. simpl.
  match goal with
  | |- context [for_fold _ (create_raw_corpora_body ?subs) []] =>
      destruct (raw_loop_malformed subs pre bad post [] Hbad) as [[e He] Hpre]
  end.
  split.
  - rewrite He. by eexists.
  - intros Hok. by rewrite (Hpre Hok).
Qed.

End malformed.

Lemma corpus_rows_ok : Forall row_ok Fixtures.corpus_rows.
Proof.
  unfold Fixtures.corpus_rows.
  repeat (constructor;
    [do 2 eexists; split; [vm_compute; reflexivity|vm_compute; reflexivity]|]).
  constructor.
Qed.

Lemma malformed_row_fails_witness :
  (exists e, initialize (Fixtures.mk_fs (Fixtures.corpus_rows ++ [Fixtures.line "The men walk"])
                                        Fixtures.vocab Fixtures.wiki)
                        Fixtures.fold_e_acute Fixtures.plural_of Fixtures.task
                        (lit "data") (Some Fixtures.requested) None
             = Raise e) /\
  initialize (Fixtures.mk_fs (Fixtures.corpus_rows ++ [Fixtures.line "The men walk"])
                             Fixtures.vocab Fixtures.wiki)
             Fixtures.fold_e_acute Fixtures.plural_of Fixtures.task
             (lit "data") (Some Fixtures.requested) None
  = Raise TypeError.
Proof.
  assert (length (split_on 9 (strip (Fixtures.line "The men walk"))) <> 18%nat)
    as Hbad by (vm_compute; discriminate).
  pose proof (malformed_row_fails
           (Fixtures.mk_fs (Fixtures.corpus_rows ++ [Fixtures.line "The men walk"])
                           Fixtures.vocab Fixtures.wiki)
           Fixtures.fold_e_acute Fixtures.plural_of Fixtures.task (lit "data")
           (Some Fixtures.requested) None
           (Fixtures.line "sentence	orig_sentence	pos_sentence")
           Fixtures.corpus_rows (Fixtures.line "The men walk") [] eq_refl Hbad)
    as [Hfails Htype].
  split; [exact Hfails|exact (Htype corpus_rows_ok)].
Defined.

(** C3 as stated fails: a row with one more tab after its 18 fields splits
    on tabs into 19 fields, with or without its newline, and the build
    accepts it, since the row is stripped before it is split. *)
Lemma trailing_tab_row_is_accepted :
  Fixtures.trailing_tab_row
  = join [9%N] (lit <$> Fixtures.trailing_tab_fields) ++ [10%N] /\
  length (split_on 9 Fixtures.trailing_tab_row) = 19%nat /\
  length (split_on 9 (join [9%N] (lit <$> Fixtures.trailing_tab_fields))) = 19%nat /\
  exists out,
    initialize (Fixtures.mk_fs [Fixtures.trailing_tab_row] Fixtures.vocab Fixtures.wiki)
               Fixtures.fold_e_acute Fixtures.plural_of Fixtures.task
               (lit "data") (Some Fixtures.requested) None
    = Ok out /\
    (length <$> (examples <$> find_corpus out (lit "1") (lit "S"))) = Some 1%nat.
Proof.
  split_and!; [reflexivity|reflexivity|reflexivity|].
  eexists. split; [vm_compute; reflexivity|reflexivity].
Qed.

(** *** The inflection table *)

Lemma wiki_body_ok model_vocab p2t line p2t' :
  wiki_vocab_body model_vocab p2t line = Ok p2t' ->
  exists word pos x,
    split (strip line) = [word; pos; x] /\
    p2t' = if bool_decide (word ∈ model_vocab) && bool_decide (is_Some (oget pos p2t))
           then oset pos (default [] (oget pos p2t) ++ [word]) p2t
           else p2t.
Proof.
  unfold wiki_vocab_body, getitem.
  destruct (split (strip line)) as [|word [|pos [|x [|]]]]; try done.
  intros Hbody. exists word, pos, x. split; [done|].
  destruct (bool_decide (word ∈ model_vocab)); simpl in *; [|by simplify_eq].
  case_bool_decide as Hpos; simpl in *; [|by simplify_eq].
  destruct Hpos as [tokens Hpos]. rewrite Hpos in *. simpl in *. by simplify_eq.
Qed.

Lemma wiki_loop model_vocab rows p2t0 p2t :
  p2t0.*1 = [lit "VBP"; lit "VBZ"] ->
  for_fold rows (wiki_vocab_body model_vocab) p2t0 = Ok p2t ->
  forall tag, tag ∈ [lit "VBP"; lit "VBZ"] ->
    oget tag p2t = Some (default [] (oget tag p2t0) ++ tagged model_vocab tag rows).
Proof.
  revert p2t0. induction rows as [|line rows IH]; intros p2t0 Hkeys; simpl.
  - intros [= <-] tag Htag. rewrite app_nil_r.
    assert (is_Some (oget tag p2t0)) as [tokens ->]; [|done].
    apply oget_is_Some. by rewrite Hkeys.
  - destruct (wiki_vocab_body model_vocab p2t0 line) as [p2t1|] eqn:Hbody; [|done].
    apply wiki_body_ok in Hbody as (word & pos & x & Hline & ->).
    intros Hloop tag Htag. unfold tagged. csimpl. rewrite Hline.
    fold (tagged model_vocab tag rows).
    destruct (decide (word ∈ model_vocab)) as [Hword|Hword];
      [rewrite (bool_decide_eq_true_2 _ Hword) in Hloop
      |rewrite (bool_decide_eq_false_2 _ Hword) in Hloop]; simpl in Hloop.
    + destruct (decide (is_Some (oget pos p2t0))) as [Hpos|Hpos];
        [rewrite (bool_decide_eq_true_2 _ Hpos) in Hloop
        |rewrite (bool_decide_eq_false_2 _ Hpos) in Hloop].
      * assert ((oset pos (default [] (oget pos p2t0) ++ [word]) p2t0).*1
                = [lit "VBP"; lit "VBZ"]) as Hkeys1.
        { rewrite oset_keys, bool_decide_eq_true_2; [done|by apply oget_is_Some]. }
        rewrite (IH _ Hkeys1 Hloop tag Htag).
        destruct (decide (pos = tag)) as [->|Hne].
        -- rewrite oget_oset_eq, bool_decide_eq_true_2 by done.
           simpl. by rewrite <- app_assoc.
        -- rewrite oget_oset_ne by done.
           rewrite bool_decide_eq_false_2; [done|]. intros [_ ?]. done.
      * rewrite (IH _ Hkeys Hloop tag Htag).
        rewrite bool_decide_eq_false_2; [done|]. intros [_ ->].
        apply Hpos, oget_is_Some. by rewrite Hkeys.
    + rewrite (IH _ Hkeys Hloop tag Htag).
      rewrite bool_decide_eq_false_2; [done|]. intros [? _]. done.
Qed.

Lemma tagged_in_vocab model_vocab tag rows w :
  w ∈ tagged model_vocab tag rows -> w ∈ model_vocab.
Proof.
  unfold tagged. intros (line & _ & Hline)%list_elem_of_omap.
  destruct (split (strip line)) as [|word [|pos [|x [|]]]]; try done.
  case_bool_decide as Hw; [|done]. simplify_eq. tauto.
Qed.

Section table.
Context (fs : filesystem) (plural_verb : str -> str).
Implicit Types (vi : gmap str str) (vbz vbp ws : list str).

(** What the loop over [pos_to_token["VBZ"]] builds: every value is a key,
    every entry pairs an accepted word with its plural in one direction,
    and every accepted word and its plural are keys. *)
Lemma table_invariant vbp ws :
  let vi := foldl (inflection_step plural_verb vbp) ∅ ws in
  (forall k v, vi !! k = Some v ->
     is_Some (vi !! v) /\
     ((accepted plural_verb ws vbp k /\ v = plural_verb k) \/
      (accepted plural_verb ws vbp v /\ k = plural_verb v))) /\
  (forall w, accepted plural_verb ws vbp w ->
     is_Some (vi !! w) /\ is_Some (vi !! plural_verb w)).
Proof.
  unfold accepted. induction ws as [|w ws IH] using rev_ind; simpl.
  - split; [intros k v Hk; by rewrite lookup_empty in Hk|].
    intros w [Hw _]. by apply elem_of_nil in Hw.
  - rewrite foldl_snoc. simpl in IH. revert IH.
    generalize (foldl (inflection_step plural_verb vbp) ∅ ws).
    intros vi [IHpair IHkeys]. unfold inflection_step.
    setoid_rewrite elem_of_app. setoid_rewrite list_elem_of_singleton.
    case_bool_decide as Hp.
    + split.
      * intros k v Hk. rewrite !lookup_insert_is_Some'.
        apply lookup_insert_Some in Hk as [[<- <-]|[Hkw Hk]]; [by eauto 8|].
        apply lookup_insert_Some in Hk as [[<- <-]|[Hkp Hk]]; [by eauto 8|].
        destruct (IHpair k v Hk) as [? [[[??]?]|[[??]?]]]; eauto 10.
      * intros w' [Hw' Hp']. rewrite !lookup_insert_is_Some'.
        destruct Hw' as [Hw'| ->]; [|by eauto].
        destruct (IHkeys w') as [? ?]; [done|]. tauto.
    + split.
      * intros k v Hk.
        destruct (IHpair k v Hk) as [? [[[??]?]|[[??]?]]]; eauto 10.
      * intros w' [[Hw'| ->] Hp']; [|done]. by apply IHkeys.
Qed.

Lemma create_verb_inflections_spec (self : LinzenDownstream) corpus_path vi :
  create_verb_inflections fs plural_verb self corpus_path = Ok vi ->
  exists vocab_lines header rows,
    fs (vocab_path self) = Some vocab_lines /\
    fs (path_join corpus_path (lit "wiki.vocab")) = Some (header :: rows) /\
    vi = foldl (inflection_step plural_verb
                  (tagged (list_to_set (strip <$> vocab_lines)) (lit "VBP") rows))
               ∅ (tagged (list_to_set (strip <$> vocab_lines)) (lit "VBZ") rows).
Proof.
  unfold create_verb_inflections, open, next.
  remember (path_join corpus_path (lit "wiki.vocab")) as wiki_path eqn:Hpath.
  destruct (fs (vocab_path self)) as [vocab_lines|] eqn:Hvocab; simpl; [|done].
  destruct (fs wiki_path) as [[|header rows]|] eqn:Hwiki; simpl; [done| |done].
  destruct (for_fold rows _ _) as [p2t|] eqn:Hloop; simpl; [|done].
  pose proof (wiki_loop _ rows [(lit "VBP", []); (lit "VBZ", [])] p2t eq_refl Hloop)
    as Hp2t.
  unfold getitem.
  rewrite (Hp2t (lit "VBZ")), (Hp2t (lit "VBP")) by set_solver. simpl.
  intros [= <-]. by exists vocab_lines, header, rows.
Qed.

(** C2, as the code has it.  In the returned table every value is also a
    key, and every key and value is a token of the model vocabulary file;
    the keys are exactly the accepted words (VBZ-tagged in-vocabulary words
    whose proposed plural is among the VBP-tagged in-vocabulary words) and
    their proposed plurals.  [table[table[k]] = k], and each accepted word
    is mapped to its plural and back, when the oracle is injective on the
    accepted words and no accepted word is the proposed plural of another
    accepted word. *)
Theorem verb_inflections_pairs (self : LinzenDownstream) corpus_path vi :
  create_verb_inflections fs plural_verb self corpus_path = Ok vi ->
  exists vocab_lines header rows,
    fs (vocab_path self) = Some vocab_lines /\
    fs (path_join corpus_path (lit "wiki.vocab")) = Some (header :: rows) /\
    let model_vocab : gset str := list_to_set (strip <$> vocab_lines) in
    let acc := accepted plural_verb (tagged model_vocab (lit "VBZ") rows)
                        (tagged model_vocab (lit "VBP") rows) in
    (forall k v, vi !! k = Some v ->
       is_Some (vi !! v) /\ k ∈ model_vocab /\ v ∈ model_vocab) /\
    (forall k, is_Some (vi !! k) <-> exists w, acc w /\ (k = w \/ k = plural_verb w)) /\
    ((forall w1 w2, acc w1 -> acc w2 -> plural_verb w1 = plural_verb w2 -> w1 = w2) ->
     (forall w1 w2, acc w1 -> acc w2 -> plural_verb w1 = w2 -> w1 = w2) ->
     (forall k v, vi !! k = Some v -> vi !! v = Some k) /\
     (forall w, acc w -> vi !! w = Some (plural_verb w) /\ vi !! plural_verb w = Some w)).
Proof.
  intros (vocab_lines & header & rows & Hvocab & Hwiki & ->)%create_verb_inflections_spec.
  exists vocab_lines, header, rows. split_and!; [done|done|]. simpl.
  set (model_vocab := list_to_set (strip <$> vocab_lines) : gset str).
  set (vbz := tagged model_vocab (lit "VBZ") rows).
  set (vbp := tagged model_vocab (lit "VBP") rows).
  destruct (table_invariant vbp vbz) as [Hpair Hkeys].
  set (vi := foldl (inflection_step plural_verb vbp) ∅ vbz) in *.
  assert (forall w, accepted plural_verb vbz vbp w ->
                    w ∈ model_vocab /\ plural_verb w ∈ model_vocab) as Hvoc.
  { intros w [Hw Hp]. split; by eapply tagged_in_vocab. }
  split_and!.
  - intros k v Hk. destruct (Hpair k v Hk) as [Hv [[Hacc ->]|[Hacc ->]]];
      destruct (Hvoc _ Hacc); done.
  - intros k. split.
    + intros [v Hk]. destruct (Hpair k v Hk) as [_ [[Hacc ->]|[Hacc ->]]]; eauto.
    + intros (w & Hacc & [-> | ->]); by apply Hkeys.
  - intros Hinj Hdisj.
    assert (forall w, accepted plural_verb vbz vbp w ->
              vi !! w = Some (plural_verb w) /\ vi !! plural_verb w = Some w) as Hboth.
    { intros w Hacc. destruct (Hkeys w Hacc) as [[v Hv] [v' Hv']]. split.
      - rewrite Hv. f_equal.
        destruct (Hpair w v Hv) as [_ [[_ ->]|[Hacc' Hw]]]; [done|].
        assert (v = w) as -> by (by apply Hdisj). done.
      - rewrite Hv'. f_equal.
        destruct (Hpair _ v' Hv') as [_ [[Hacc' ->]|[Hacc' Hw]]].
        + assert (w = plural_verb w) as Hfix by (by apply Hdisj).
          by rewrite <- !Hfix.
        + symmetry. by apply Hinj. }
    split; [|done].
    intros k v Hk. destruct (Hpair k v Hk) as [_ [[Hacc ->]|[Hacc ->]]];
      by apply Hboth.
Qed.

End table.

(** Membership in a list given by its elements, by cases. *)
Ltac list_cases H :=
  match type of H with
  | _ ∈ ?l => let l' := eval vm_compute in l in change l with l' in H
  end;
  repeat (apply elem_of_cons in H as [->|H]);
  try (by apply elem_of_nil in H).

(** On the small corpus the accepted words are "walks" and "has"; the
    oracle separates them, so the table is symmetric. *)
Lemma verb_inflections_pairs_witness :
  (forall k v, Fixtures.table_on Fixtures.small_fs !! k = Some v ->
     is_Some (Fixtures.table_on Fixtures.small_fs !! v)) /\
  (forall k v, Fixtures.table_on Fixtures.small_fs !! k = Some v ->
     Fixtures.table_on Fixtures.small_fs !! v = Some k).
Proof.
  destruct (verb_inflections_pairs Fixtures.small_fs Fixtures.plural_of Fixtures.task
              (lit "data") (Fixtures.table_on Fixtures.small_fs))
    as (vocab_lines & header & rows & Hvocab & Hwiki & Hkeys & _ & Hsym).
  { vm_compute. reflexivity. }
  vm_compute in Hvocab. injection Hvocab as <-.
  vm_compute in Hwiki. injection Hwiki as <- <-.
  split.
  - intros k v Hk. by destruct (Hkeys k v Hk).
  - apply Hsym.
    + intros w1 w2 [H1 _] [H2 _] Heq. list_cases H1; list_cases H2; done.
    + intros w1 w2 [H1 _] [H2 _] Heq. list_cases H1; list_cases H2; done.
Defined.

(** C2 as stated fails: when the tagged word list also lists "have" as VBZ,
    the oracle proposes "have" for both "has" and "have", and the table maps
    "has" to "have" but "have" to itself. *)
Lemma table_not_symmetric :
  exists vi,
    create_verb_inflections
      (Fixtures.mk_fs Fixtures.corpus_rows Fixtures.vocab Fixtures.wiki_have_twice)
      Fixtures.plural_of Fixtures.task (lit "data") = Ok vi /\
    vi !! lit "has" = Some (lit "have") /\
    vi !! lit "have" = Some (lit "have") /\
    (vi !! lit "has" ≫= (vi !!.)) <> Some (lit "has").
Proof.
  exists (Fixtures.table_on
            (Fixtures.mk_fs Fixtures.corpus_rows Fixtures.vocab Fixtures.wiki_have_twice)).
  split_and!; [vm_compute; reflexivity|vm_compute; reflexivity
              |vm_compute; reflexivity|vm_compute; discriminate].
Qed.

(** *** Further properties of the classification *)

Lemma condition_of_tags_alphabet (tags : list str) :
  (forall ch, ch ∈ condition_of_tags tags -> ch = 80%N \/ ch = 83%N) /\
  (length (condition_of_tags tags) <= length tags)%nat.
Proof.
  unfold condition_of_tags. split.
  - intros ch (t & _ & Ht)%list_elem_of_omap. unfold tag_code in Ht.
    repeat case_decide; simplify_eq; auto.
  - induction tags as [|t tags IH]; csimpl; [done|].
    destruct (tag_code t); simpl; lia.
Qed.

(** X5. A condition returned by [item_to_sva_condition] is a string over
    the two letters "P" and "S", and it is not longer than the POS sentence
    has tags. *)
Theorem condition_alphabet (item : RawItem) (c : str) :
  item_to_sva_condition item = Ok c ->
  (forall ch, ch ∈ c -> ch = 80%N \/ ch = 83%N) /\
  (length c <= length (split (pos_sentence item)))%nat.
Proof.
  unfold item_to_sva_condition.
  destruct (int (subj_index item)) as [lo|]; simpl; [|done].
  destruct (int (verb_index item)) as [hi|]; simpl; [|done].
  rewrite join_pos_mapping. intros [= <-].
  destruct (condition_of_tags_alphabet
              (slice (split (pos_sentence item)) (Some (lo - 1)) (Some hi)))
    as [Hch Hlen].
  split; [done|]. etrans; [done|].
  unfold slice. rewrite length_take, length_drop. lia.
Qed.

Lemma condition_alphabet_witness :
  (forall ch, ch ∈ lit "PS" -> ch = 80%N \/ ch = 83%N) /\
  (length (lit "PS") <= length (split (pos_sentence Fixtures.men_item)))%nat.
Proof.
  apply (condition_alphabet Fixtures.men_item (lit "PS")). reflexivity.
Defined.

(** X6. A subject index below 1 does not start the scan at the first tag:
    the start [subj_index - 1] is negative and counts from the end of the
    sentence.  For a subject index [lo <= 0] and a verb index [hi >= 0] the
    condition is that of the tags at the positions [n + lo - 1] (inclusive)
    to [hi] (exclusive), [n] being the number of tags; with [lo = 0] the
    scan starts at the last tag. *)
Theorem subject_index_below_one (item : RawItem) (lo hi : Z) :
  int (subj_index item) = Ok lo -> int (verb_index item) = Ok hi ->
  lo <= 0 -> 0 <= hi ->
  item_to_sva_condition item
  = Ok (condition_of_tags
          (index_range (split (pos_sentence item))
                       (Z.to_nat (len (split (pos_sentence item)) + lo - 1))
                       (Z.to_nat hi))).
Proof.
  intros Hlo Hhi Hlo0 Hhi0. unfold item_to_sva_condition.
  rewrite Hlo, Hhi. simpl. rewrite join_pos_mapping.
  rewrite slice_negative_start by lia.
  unfold index_range. rewrite index_range_take_drop.
  by replace (len (split (pos_sentence item)) + (lo - 1))
    with (len (split (pos_sentence item)) + lo - 1) by lia.
Qed.

Lemma subject_index_below_one_witness :
  item_to_sva_condition Fixtures.subj0_item
  = Ok (condition_of_tags
          (index_range (split (pos_sentence Fixtures.subj0_item))
                       (Z.to_nat (len (split (pos_sentence Fixtures.subj0_item)) + 0 - 1))
                       (Z.to_nat 6))).
Proof.
  apply (subject_index_below_one Fixtures.subj0_item 0 6);
    [reflexivity|reflexivity|lia|lia].
Defined.

(** With the subject index 0 the sentence of the docstring loses its
    condition "PS": only the last tag, VBP, is scanned. *)
Example subj0_item_condition :
  item_to_sva_condition Fixtures.subj0_item = Ok [].
Proof. reflexivity. Qed.

(** *** Further properties of the build *)

(** X7. What [create_raw_corpora] returns: every row of the file yields an
    item with a condition; the keys are pairwise distinct; and a condition
    holds a list of items exactly when it is requested and some row has it,
    the list being the items of the rows with that condition in the order
    of the file.  Rows of other conditions are dropped without error. *)
Theorem raw_corpora_by_condition fs corpus_path subtasks raw :
  create_raw_corpora fs corpus_path subtasks = Ok raw ->
  exists header rows,
    fs (path_join corpus_path (lit "agr_50_mostcommon_10K.tsv")) = Some (header :: rows) /\
    Forall row_ok rows /\ NoDup raw.*1 /\
    forall c items,
      oget c raw = Some items
      <-> c ∈ subtasks /\ items <> [] /\ items = retained c rows.
Proof.
  intros (header & rows & Hfs & Hok & Hnd & Hget)%create_raw_corpora_spec.
  exists header, rows. split_and!; [done|done|done|].
  intros c items. rewrite Hget. case_bool_decide as Hc.
  - split; [intros [= <-]; tauto|]. by intros (_ & _ & ->).
  - split; [done|]. intros (? & ? & ->). tauto.
Qed.

Lemma raw_corpora_by_condition_witness :
  exists header rows,
    Fixtures.small_fs (path_join (lit "data") (lit "agr_50_mostcommon_10K.tsv"))
    = Some (header :: rows) /\
    Forall row_ok rows /\
    NoDup (default [] (match create_raw_corpora Fixtures.small_fs (lit "data")
                                                Fixtures.requested with
                       | Ok raw => Some raw | Raise _ => None end)).*1 /\
    forall c items,
      oget c (default [] (match create_raw_corpora Fixtures.small_fs (lit "data")
                                                   Fixtures.requested with
                          | Ok raw => Some raw | Raise _ => None end))
      = Some items
      <-> c ∈ Fixtures.requested /\ items <> [] /\ items = retained c rows.
Proof.
  apply (raw_corpora_by_condition Fixtures.small_fs (lit "data") Fixtures.requested).
  vm_compute. reflexivity.
Defined.

Section more_build.
Context (fs : filesystem) (unidecode : str -> str) (plural_verb : str -> str).
Implicit Types (self : LinzenDownstream) (vi : gmap str str).
Implicit Types (items : list RawItem) (cap : option Z).

(** X8. The build succeeds exactly when the corpus file has a header line,
    every row after it yields an item with a condition, and the inflection
    table can be built; the requested conditions and the cap play no part
    in it. *)
Theorem build_succeeds_iff self corpus_path subtasks cap :
  (exists out,
     create_corpora fs unidecode plural_verb self corpus_path subtasks cap = Ok out)
  <-> exists header rows vi,
        fs (path_join corpus_path (lit "agr_50_mostcommon_10K.tsv"))
        = Some (header :: rows) /\
        Forall row_ok rows /\
        create_verb_inflections fs plural_verb self corpus_path = Ok vi.
Proof.
  split.
  - intros [out (header & rows & vi & Hfs & Hok & Hvi & _)%create_corpora_spec].
    by exists header, rows, vi.
  - intros (header & rows & vi & Hfs & Hok & Hvi).
    by eapply create_corpora_total.
Qed.

(** X9. Files that are missing or empty.  A build without the corpus file
    raises [FileNotFoundError], and one whose corpus file has no line, not
    even the header, raises [StopIteration]; the same holds of the tagged
    word list [wiki.vocab] when the table is built, and a missing model
    vocabulary file raises [FileNotFoundError]. *)
Theorem missing_or_empty_files self corpus_path subtasks
    (ips : option (option Z)) :
  (fs (path_join corpus_path (lit "agr_50_mostcommon_10K.tsv")) = None ->
   initialize fs unidecode plural_verb self corpus_path subtasks ips
   = Raise FileNotFoundError) /\
  (fs (path_join corpus_path (lit "agr_50_mostcommon_10K.tsv")) = Some [] ->
   initialize fs unidecode plural_verb self corpus_path subtasks ips
   = Raise StopIteration) /\
  (fs (vocab_path self) = None ->
   create_verb_inflections fs plural_verb self corpus_path = Raise FileNotFoundError) /\
  (forall vocab_lines,
     fs (vocab_path self) = Some vocab_lines ->
     (fs (path_join corpus_path (lit "wiki.vocab")) = None ->
      create_verb_inflections fs plural_verb self corpus_path
      = Raise FileNotFoundError) /\
     (fs (path_join corpus_path (lit "wiki.vocab")) = Some [] ->
      create_verb_inflections fs plural_verb self corpus_path
      = Raise StopIteration)).
Proof.
  split_and!.
  - intros Hfs. unfold initialize, create_corpora, create_raw_corpora, open.
    by rewrite Hfs.
  - intros Hfs. unfold initialize, create_corpora, create_raw_corpora, open.
    by rewrite Hfs.
  - intros Hfs. unfold create_verb_inflections, open. by rewrite Hfs.
  - intros vocab_lines Hvocab. unfold create_verb_inflections, open.
    rewrite Hvocab. split; intros Hwiki; by rewrite Hwiki.
Qed.

(** X10. A row of [wiki.vocab] that does not split on whitespace into
    exactly three fields makes [create_verb_inflections] raise
    [ValueError], when the rows before it have three fields each. *)
Theorem wiki_row_needs_three_fields self corpus_path vocab_lines header pre bad post :
  fs (vocab_path self) = Some vocab_lines ->
  fs (path_join corpus_path (lit "wiki.vocab")) = Some (header :: pre ++ bad :: post) ->
  Forall (fun row => length (split (strip row)) = 3%nat) pre ->
  length (split (strip bad)) <> 3%nat ->
  create_verb_inflections fs plural_verb self corpus_path = Raise ValueError.
Proof.
  intros Hvocab Hwiki Hpre Hbad. unfold create_verb_inflections, open, next.
  remember (path_join corpus_path (lit "wiki.vocab")) as wiki_path eqn:Hpath.
  rewrite Hvocab. simpl. rewrite Hwiki. simpl. rewrite for_fold_app.
  set (body := wiki_vocab_body (list_to_set (strip <$> vocab_lines))).
  assert (forall p2t, exists p2t', for_fold pre body p2t = Ok p2t') as Hpre'.
  { clear Hwiki. induction Hpre as [|row pre Hrow _ IH]; intros p2t; simpl.
    - by eexists.
    - unfold body at 1, wiki_vocab_body.
      destruct (split (strip row)) as [|word [|pos [|x [|]]]]; try done.
      destruct (bool_decide (word ∈ _) && bool_decide (is_Some (oget pos p2t)))
        eqn:Hcond; [|apply IH].
      apply andb_true_iff in Hcond as [_ [tokens Hpos]%bool_decide_eq_true].
      unfold getitem. rewrite Hpos. simpl. apply IH. }
  destruct (Hpre' [(lit "VBP", []); (lit "VBZ", [])]) as [p2t ->]. simpl.
  unfold body, wiki_vocab_body.
  by destruct (split (strip bad)) as [|word [|pos [|x [|]]]].
Qed.

(** X11. The context of an example at the bounds of the verb index [v],
    for an item whose verb has an inflection pair: with [v = 1] the context
    is empty; with [v] beyond the number of tokens it is the whole sentence;
    with [v <= 0] the bound [v - 1] counts from the end, so the context is
    the sentence without its last [1 - v] tokens. *)
Theorem context_bounds (item : RawItem) vi (v : Z) (opposite_verb : str) :
  int (verb_index item) = Ok v ->
  vi !! verb item = Some opposite_verb ->
  exists e,
    item_to_example unidecode item vi = Ok (Some e) /\
    token e = verb item /\ wrong_token e = opposite_verb /\
    (v = 1 -> sen e = []) /\
    (len (split (normalized unidecode (orig_sentence item))) < v ->
     sen e = split (normalized unidecode (orig_sentence item))) /\
    (v <= 0 ->
     sen e = take (Z.to_nat (len (split (normalized unidecode (orig_sentence item)))
                             + v - 1))
                  (split (normalized unidecode (orig_sentence item)))).
Proof.
  intros Hv Hverb. unfold item_to_example. rewrite Hv. simpl. rewrite Hverb.
  eexists. split; [done|]. simpl. fold (normalized unidecode (orig_sentence item)).
  split_and!; [done|done| | |].
  - intros ->. by rewrite slice_prefix.
  - intros Hlen. rewrite slice_prefix by (unfold len in *; lia).
    apply take_ge. unfold len in *. lia.
  - intros Hv0. rewrite slice_negative_stop by lia. f_equal. lia.
Qed.

(** X12. A negative cap raises nothing and does not empty the corpus: for
    [N < 0] and items with integer verb indices, [create_corpus] keeps the
    surviving examples without the last [-N] of them. *)
Theorem negative_cap_drops_tail self items vi (N : Z) :
  (forall item, item ∈ items -> exists v, int (verb_index item) = Ok v) ->
  N < 0 ->
  exists corpus,
    create_corpus unidecode self items vi (Some N) = Ok corpus /\
    examples corpus
    = take (Z.to_nat (len (surviving unidecode vi items) + N))
           (surviving unidecode vi items) /\
    len (examples corpus) = Z.max 0 (len (surviving unidecode vi items) + N).
Proof.
  intros Hitems HN. rewrite create_corpus_ok by done.
  eexists. split; [done|]. unfold corpus_of, cap_examples. simpl.
  rewrite slice_negative_stop by done. split; [done|].
  unfold len. rewrite length_take. lia.
Qed.

End more_build.

Lemma missing_or_empty_files_witness :
  create_verb_inflections Fixtures.fs_without_wiki Fixtures.plural_of Fixtures.task
                          (lit "data") = Raise FileNotFoundError /\
  initialize Fixtures.fs_without_wiki Fixtures.fold_e_acute Fixtures.plural_of
             Fixtures.task (lit "nowhere") None None = Raise FileNotFoundError.
Proof.
  pose proof (missing_or_empty_files Fixtures.fs_without_wiki Fixtures.fold_e_acute
                Fixtures.plural_of Fixtures.task (lit "data") None None)
    as (_ & _ & _ & Hwiki).
  pose proof (missing_or_empty_files Fixtures.fs_without_wiki Fixtures.fold_e_acute
                Fixtures.plural_of Fixtures.task (lit "nowhere") None None)
    as (Hcorpus & _).
  split.
  - eapply Hwiki; reflexivity.
  - apply Hcorpus. reflexivity.
Defined.

Lemma wiki_row_needs_three_fields_witness :
  create_verb_inflections Fixtures.fs_short_wiki_row Fixtures.plural_of Fixtures.task
                          (lit "data") = Raise ValueError.
Proof.
  apply (wiki_row_needs_three_fields Fixtures.fs_short_wiki_row Fixtures.plural_of
           Fixtures.task (lit "data")
           (Fixtures.line <$> Fixtures.vocab)
           (Fixtures.line "word pos freq")
           [Fixtures.line "walk VBP 120"] (Fixtures.line "walks VBZ")
           [Fixtures.line "has VBZ 300"]).
  - reflexivity.
  - reflexivity.
  - repeat constructor.
  - vm_compute. discriminate.
Defined.

Lemma context_bounds_witness :
  exists e,
    item_to_example Fixtures.fold_e_acute Fixtures.verb0_item Fixtures.small_table
    = Ok (Some e) /\
    token e = verb Fixtures.verb0_item /\ wrong_token e = lit "walks" /\
    (0 = 1 -> sen e = []) /\
    (len (split (normalized Fixtures.fold_e_acute (orig_sentence Fixtures.verb0_item))) < 0 ->
     sen e = split (normalized Fixtures.fold_e_acute (orig_sentence Fixtures.verb0_item))) /\
    (0 <= 0 ->
     sen e = take (Z.to_nat (len (split (normalized Fixtures.fold_e_acute
                                           (orig_sentence Fixtures.verb0_item)))
                             + 0 - 1))
                  (split (normalized Fixtures.fold_e_acute
                            (orig_sentence Fixtures.verb0_item)))).
Proof.
  apply (context_bounds Fixtures.fold_e_acute Fixtures.verb0_item Fixtures.small_table
           0 (lit "walks")); reflexivity.
Defined.

(** With the verb index 0 the context of the docstring sentence is the
    sentence without its last token. *)
Example verb0_item_context :
  sen <$> example_of Fixtures.fold_e_acute Fixtures.small_table Fixtures.verb0_item
  = Some (lit <$> ["The"; "men"; "under"; "the"; "bridge"]%string).
Proof. reflexivity. Qed.

Lemma negative_cap_drops_tail_witness :
  exists corpus,
    create_corpus Fixtures.fold_e_acute Fixtures.task
                  [Fixtures.men_item; Fixtures.men_item; Fixtures.verb0_item]
                  Fixtures.small_table (Some (-1)) = Ok corpus /\
    examples corpus
    = take (Z.to_nat (len (surviving Fixtures.fold_e_acute Fixtures.small_table
                             [Fixtures.men_item; Fixtures.men_item; Fixtures.verb0_item])
                      + -1))
           (surviving Fixtures.fold_e_acute Fixtures.small_table
              [Fixtures.men_item; Fixtures.men_item; Fixtures.verb0_item]) /\
    len (examples corpus)
    = Z.max 0 (len (surviving Fixtures.fold_e_acute Fixtures.small_table
                      [Fixtures.men_item; Fixtures.men_item; Fixtures.verb0_item])
               + -1).
Proof.
  apply (negative_cap_drops_tail Fixtures.fold_e_acute Fixtures.task
           [Fixtures.men_item; Fixtures.men_item; Fixtures.verb0_item]
           Fixtures.small_table (-1)); [|lia].
  intros item Hitem.
  repeat (apply elem_of_cons in Hitem as [->|Hitem]; [eexists; reflexivity|]).
  by apply elem_of_nil in Hitem.
Defined.

(** *** Further properties of the inflection table and of the examples *)

Section more_table.
Context (fs : filesystem) (unidecode : str -> str) (plural_verb : str -> str).
Implicit Types (self : LinzenDownstream) (vi : gmap str str).

(** Every entry of the table pairs an accepted word with its plural, in one
    direction or the other. *)
Lemma table_entries self corpus_path vi :
  create_verb_inflections fs plural_verb self corpus_path = Ok vi ->
  exists vocab_lines header rows,
    fs (vocab_path self) = Some vocab_lines /\
    fs (path_join corpus_path (lit "wiki.vocab")) = Some (header :: rows) /\
    forall k v, vi !! k = Some v ->
      (accepted plural_verb
         (tagged (list_to_set (strip <$> vocab_lines)) (lit "VBZ") rows)
         (tagged (list_to_set (strip <$> vocab_lines)) (lit "VBP") rows) k
       /\ v = plural_verb k) \/
      (accepted plural_verb
         (tagged (list_to_set (strip <$> vocab_lines)) (lit "VBZ") rows)
         (tagged (list_to_set (strip <$> vocab_lines)) (lit "VBP") rows) v
       /\ k = plural_verb v).
Proof.
  intros (vocab_lines & header & rows & Hvocab & Hwiki & ->)%create_verb_inflections_spec.
  exists vocab_lines, header, rows. split_and!; [done|done|].
  intros k v Hk.
  by destruct (table_invariant fs plural_verb
                 (tagged (list_to_set (strip <$> vocab_lines)) (lit "VBP") rows)
                 (tagged (list_to_set (strip <$> vocab_lines)) (lit "VBZ") rows))
    as [Hpair _]; destruct (Hpair k v Hk).
Qed.

(** X13. The table maps a word to itself only if the oracle returns the
    word as its own plural and the word is listed in [wiki.vocab] both as
    VBZ and as VBP (and is in the model vocabulary). *)
Theorem self_pair_needs_fixed_point self corpus_path vi :
  create_verb_inflections fs plural_verb self corpus_path = Ok vi ->
  exists vocab_lines header rows,
    fs (vocab_path self) = Some vocab_lines /\
    fs (path_join corpus_path (lit "wiki.vocab")) = Some (header :: rows) /\
    forall k, vi !! k = Some k ->
      plural_verb k = k /\
      k ∈ tagged (list_to_set (strip <$> vocab_lines)) (lit "VBZ") rows /\
      k ∈ tagged (list_to_set (strip <$> vocab_lines)) (lit "VBP") rows.
Proof.
  intros (vocab_lines & header & rows & Hvocab & Hwiki & Hpair)%table_entries.
  exists vocab_lines, header, rows. split_and!; [done|done|].
  intros k Hk. destruct (Hpair k k Hk) as [[[Hz Hp] Heq]|[[Hz Hp] Heq]];
    rewrite <- Heq in Hp; by rewrite <- Heq.
Qed.

(** X14. Every example of a built corpus comes from a retained row of its
    condition: its token is the verb of the row, its wrong token is the
    entry of that verb in the inflection table, and both are tokens of the
    model vocabulary file. *)
Theorem examples_are_inflection_pairs self corpus_path subtasks cap out :
  create_corpora fs unidecode plural_verb self corpus_path subtasks cap = Ok out ->
  exists header rows vi vocab_lines,
    fs (path_join corpus_path (lit "agr_50_mostcommon_10K.tsv")) = Some (header :: rows) /\
    create_verb_inflections fs plural_verb self corpus_path = Ok vi /\
    fs (vocab_path self) = Some vocab_lines /\
    forall n c corpus e,
      find_corpus out n c = Some corpus -> e ∈ examples corpus ->
      (exists item,
         item ∈ retained c rows /\
         item_to_example unidecode item vi = Ok (Some e) /\
         token e = verb item) /\
      vi !! token e = Some (wrong_token e) /\
      token e ∈ (list_to_set (strip <$> vocab_lines) : gset str) /\
      wrong_token e ∈ (list_to_set (strip <$> vocab_lines) : gset str).
Proof.
  intros (header & rows & vi & Hfs & _ & Hvi & Hfind)%create_corpora_spec.
  pose proof Hvi as (vocab_lines & wheader & wrows & Hvocab & _ & Hpair)%table_entries.
  exists header, rows, vi, vocab_lines. split_and!; [done|done|done|].
  intros n c corpus e Hc He. rewrite Hfind in Hc. case_bool_decide; [|done].
  simplify_eq. unfold corpus_of in He. simpl in He.
  assert (e ∈ surviving unidecode vi (retained c rows)) as Hsurv.
  { unfold cap_examples in He. destruct cap; [by eapply elem_of_slice|done]. }
  apply list_elem_of_omap in Hsurv as (item & Hitem & Hex).
  assert (item_to_example unidecode item vi = Ok (Some e)) as Hitem_ex.
  { unfold example_of in Hex.
    destruct (item_to_example unidecode item vi) as [[e'|]|]; by simplify_eq. }
  assert (token e = verb item /\ vi !! verb item = Some (wrong_token e)) as [Htok Hwrong].
  { unfold item_to_example in Hitem_ex.
    destruct (int (verb_index item)); simpl in Hitem_ex; [|done].
    destruct (vi !! verb item); by simplify_eq. }
  rewrite Htok. split_and!; [by exists item|done| |].
  - destruct (Hpair _ _ Hwrong) as [[[Hz Hp] _]|[[Hz Hp] ->]];
      by eapply tagged_in_vocab.
  - destruct (Hpair _ _ Hwrong) as [[[Hz Hp] ->]|[[Hz Hp] _]];
      by eapply tagged_in_vocab.
Qed.

(** X15. A call of [initialize] without conditions, or with the empty list
    of conditions, builds the eight conditions of the default list: every
    condition of its output is one of them, under the key "2", "3" or "4".
    An empty list does not ask for an empty output. *)
Theorem default_subtasks_used self corpus_path (ips : option (option Z)) out :
  initialize fs unidecode plural_verb self corpus_path None ips = Ok out ->
  initialize fs unidecode plural_verb self corpus_path (Some []) ips = Ok out /\
  forall n c corpus,
    find_corpus out n c = Some corpus ->
    c ∈ default_subtasks /\ n ∈ [lit "2"; lit "3"; lit "4"].
Proof.
  unfold initialize. intros Hout. split; [done|].
  apply create_corpora_spec in Hout as (header & rows & vi & _ & _ & _ & Hfind).
  intros n c corpus Hc. rewrite Hfind in Hc.
  case_bool_decide as Hcond; [|done]. destruct Hcond as (-> & Hin & _).
  split; [done|]. unfold default_subtasks in Hin.
  repeat (apply elem_of_cons in Hin as [->|Hin]; [vm_compute; set_solver|]).
  by apply elem_of_nil in Hin.
Qed.

End more_table.

Lemma self_pair_needs_fixed_point_witness :
  exists vocab_lines header rows,
    Fixtures.mk_fs Fixtures.corpus_rows Fixtures.vocab Fixtures.wiki_have_twice
                   (vocab_path Fixtures.task) = Some vocab_lines /\
    Fixtures.mk_fs Fixtures.corpus_rows Fixtures.vocab Fixtures.wiki_have_twice
                   (path_join (lit "data") (lit "wiki.vocab")) = Some (header :: rows) /\
    forall k,
      Fixtures.table_on (Fixtures.mk_fs Fixtures.corpus_rows Fixtures.vocab
                                        Fixtures.wiki_have_twice) !! k = Some k ->
      Fixtures.plural_of k = k /\
      k ∈ tagged (list_to_set (strip <$> vocab_lines)) (lit "VBZ") rows /\
      k ∈ tagged (list_to_set (strip <$> vocab_lines)) (lit "VBP") rows.
Proof.
  apply (self_pair_needs_fixed_point
           (Fixtures.mk_fs Fixtures.corpus_rows Fixtures.vocab Fixtures.wiki_have_twice)
           Fixtures.plural_of Fixtures.task (lit "data")).
  vm_compute. reflexivity.
Defined.

Lemma examples_are_inflection_pairs_witness :
  exists header rows vi vocab_lines,
    Fixtures.small_fs (path_join (lit "data") (lit "agr_50_mostcommon_10K.tsv"))
    = Some (header :: rows) /\
    create_verb_inflections Fixtures.small_fs Fixtures.plural_of Fixtures.task (lit "data")
    = Ok vi /\
    Fixtures.small_fs (vocab_path Fixtures.task) = Some vocab_lines /\
    forall n c corpus e,
      find_corpus Fixtures.built_uncapped n c = Some corpus -> e ∈ examples corpus ->
      (exists item,
         item ∈ retained c rows /\
         item_to_example Fixtures.fold_e_acute item vi = Ok (Some e) /\
         token e = verb item) /\
      vi !! token e = Some (wrong_token e) /\
      token e ∈ (list_to_set (strip <$> vocab_lines) : gset str) /\
      wrong_token e ∈ (list_to_set (strip <$> vocab_lines) : gset str).
Proof.
  apply (examples_are_inflection_pairs Fixtures.small_fs Fixtures.fold_e_acute
           Fixtures.plural_of Fixtures.task (lit "data") Fixtures.requested None
           Fixtures.built_uncapped).
  vm_compute. reflexivity.
Defined.

Lemma default_subtasks_used_witness :
  exists out,
    initialize Fixtures.small_fs Fixtures.fold_e_acute Fixtures.plural_of Fixtures.task
               (lit "data") (Some []) None = Ok out /\
    is_Some (find_corpus out (lit "2") (lit "PS")) /\
    forall n c corpus,
      find_corpus out n c = Some corpus ->
      c ∈ default_subtasks /\ n ∈ [lit "2"; lit "3"; lit "4"].
Proof.
  eexists.
  pose proof (default_subtasks_used Fixtures.small_fs Fixtures.fold_e_acute
                Fixtures.plural_of Fixtures.task (lit "data") None _
                ltac:(vm_compute; reflexivity)) as [Hempty Hkeys].
  split_and!; [exact Hempty|by eexists|exact Hkeys].
Defined.

(** *** The order of the output *)

Lemma foldl_first_seen_fresh (seen l : list str) :
  NoDup (seen ++ l) ->
  foldl (fun seen x => if bool_decide (x ∈ seen) then seen else seen ++ [x]) seen l
  = seen ++ l.
Proof.
  revert seen. induction l as [|x l IH]; intros seen Hnd; simpl.
  - by rewrite app_nil_r.
  - pose proof Hnd as (_ & Hx & _)%NoDup_app.
    rewrite bool_decide_eq_false_2.
    + rewrite IH by (by rewrite <- app_assoc). by rewrite <- app_assoc.
    + intros Hin. apply (Hx x Hin). left.
Qed.

Lemma raw_keys subtasks rows raw0 raw :
  for_fold rows (create_raw_corpora_body subtasks) raw0 = Ok raw ->
  raw.*1
  = foldl (fun seen x => if bool_decide (x ∈ seen) then seen else seen ++ [x])
          raw0.*1 (requested_conditions subtasks rows).
Proof.
  revert raw0. induction rows as [|row rows IH]; intros raw0; simpl.
  - by intros [= <-].
  - destruct (create_raw_corpora_body subtasks raw0 row) as [raw1|] eqn:Hbody;
      [|done].
    apply raw_body_ok in Hbody as (item & c0 & Hrow & Hc0 & ->).
    intros ->%IH. unfold requested_conditions, parsed_rows. csimpl.
    rewrite Hrow. csimpl. rewrite Hc0.
    case_bool_decide; simpl; [|done]. by rewrite oset_keys.
Qed.

Section order.
Context (fs : filesystem) (unidecode : str -> str) (plural_verb : str -> str).

Lemma corpora_keys (self : LinzenDownstream) vi cap
    (raw : list (str * list RawItem)) (corpora0 out : DownstreamCorpora) :
  for_fold raw (create_corpora_body unidecode self vi cap) corpora0 = Ok out ->
  out.*1
  = foldl (fun seen x => if bool_decide (x ∈ seen) then seen else seen ++ [x])
          corpora0.*1 ((fun c => str_of_int (len c)) <$> raw.*1) /\
  forall n,
    (default [] (oget n out)).*1
    = foldl (fun seen x => if bool_decide (x ∈ seen) then seen else seen ++ [x])
            (default [] (oget n corpora0)).*1
            (filter (fun c => str_of_int (len c) = n) raw.*1).
Proof.
  revert corpora0. induction raw as [|[c0 items0] raw IH]; intros corpora0; simpl.
  - by intros [= <-].
  - destruct (create_corpus unidecode self items0 vi cap) as [corpus|]; simpl; [|done].
    intros [Houter Hinner]%IH. split.
    + rewrite Houter. csimpl. by rewrite oset_keys.
    + intros n. rewrite Hinner. csimpl. rewrite filter_cons.
      destruct (decide (str_of_int (len c0) = n)) as [<-|Hn]; simpl.
      * rewrite oget_oset_eq. csimpl. by rewrite oset_keys.
      * by rewrite oget_oset_ne.
Qed.

(** X16. The order of the output follows the corpus file.  The conditions
    are taken in the order in which they first occur among the rows; the
    attractor keys of the output are in the order in which these conditions
    first show them, and under each key the conditions of that length keep
    their order. *)
Theorem output_order (self : LinzenDownstream) corpus_path subtasks cap out :
  create_corpora fs unidecode plural_verb self corpus_path subtasks cap = Ok out ->
  exists header rows,
    fs (path_join corpus_path (lit "agr_50_mostcommon_10K.tsv")) = Some (header :: rows) /\
    out.*1
    = first_seen ((fun c => str_of_int (len c))
                    <$> first_seen (requested_conditions subtasks rows)) /\
    forall n inner,
      oget n out = Some inner ->
      inner.*1 = filter (fun c => str_of_int (len c) = n)
                        (first_seen (requested_conditions subtasks rows)).
Proof.
  unfold create_corpora.
  destruct (create_raw_corpora fs corpus_path subtasks) as [raw|] eqn:Hraw;
    simpl; [|done].
  destruct (create_verb_inflections fs plural_verb self corpus_path) as [vi|];
    simpl; [|done].
  pose proof Hraw as (header & rows & Hfs & _ & Hnd & _)%create_raw_corpora_spec.
  unfold create_raw_corpora, open, next in Hraw. rewrite Hfs in Hraw.
  simpl in Hraw. apply raw_keys in Hraw.
  assert (raw.*1 = first_seen (requested_conditions subtasks rows)) as Hkeys
    by exact Hraw.
  intros [Houter Hinner]%corpora_keys. exists header, rows.
  rewrite <- Hkeys. split_and!; [done|exact Houter|].
  intros n inner Hn. specialize (Hinner n). rewrite Hn in Hinner. simpl in Hinner.
  rewrite Hinner. apply (foldl_first_seen_fresh []). simpl.
  by apply NoDup_filter.
Qed.

End order.

Lemma output_order_witness :
  exists header rows,
    Fixtures.small_fs (path_join (lit "data") (lit "agr_50_mostcommon_10K.tsv"))
    = Some (header :: rows) /\
    Fixtures.built_uncapped.*1
    = first_seen ((fun c => str_of_int (len c))
                    <$> first_seen (requested_conditions Fixtures.requested rows)) /\
    forall n inner,
      oget n Fixtures.built_uncapped = Some inner ->
      inner.*1 = filter (fun c => str_of_int (len c) = n)
                        (first_seen (requested_conditions Fixtures.requested rows)).
Proof.
  apply (output_order Fixtures.small_fs Fixtures.fold_e_acute Fixtures.plural_of
           Fixtures.task (lit "data") Fixtures.requested None Fixtures.built_uncapped).
  vm_compute. reflexivity.
Defined.

(** On the small corpus the conditions first occur in the order "PS", "S",
    "P": the output has the key "2" before the key "1", and "S" before "P"
    under the key "1". *)
Example small_corpus_order :
  Fixtures.built_uncapped.*1 = [lit "2"; lit "1"] /\
  ((fun inner : list (str * Corpus) => inner.*1)
     <$> oget (lit "1") Fixtures.built_uncapped) = Some [lit "S"; lit "P"].
Proof. split; reflexivity. Qed.

End LinzenFacts.

(** ** The downstream suite *)

Module SuiteFacts.
Import Py PyFacts Suite.

Section facts.
Context {LanguageModel Results : Type}.
Context (lakretz_downstream marvin_downstream :
           LanguageModel -> str -> str -> option (list str) -> str -> bool
           -> res Results).

(** X17. When the tasks that are configured return, [perform_tasks] returns
    a dictionary with the key "lakretz" exactly if the Lakretz path is a
    non-empty string and the key "marvin" exactly if the Marvin path is one,
    in this order and with the values the tasks returned; the empty string
    turns a task off as [None] does. *)
Theorem perform_tasks_keys (self : DownstreamSuite) (model : LanguageModel)
    (vocab_path : str) :
  (forall path, truthy (lakretz_path self) = Some path ->
     exists r, lakretz_downstream model vocab_path path (lakretz_tasks self)
                                  (device self) (print_results self) = Ok r) ->
  (forall path, truthy (marvin_path self) = Some path ->
     exists r, marvin_downstream model vocab_path path (marvin_tasks self)
                                 (device self) (print_results self) = Ok r) ->
  exists results,
    (perform_tasks lakretz_downstream marvin_downstream self model vocab_path).2
    = Ok results /\
    results.*1
    = (match truthy (lakretz_path self) with Some _ => [lit "lakretz"] | None => [] end)
      ++ (match truthy (marvin_path self) with Some _ => [lit "marvin"] | None => [] end) /\
    (forall path,
       truthy (lakretz_path self) = Some path ->
       Ok <$> oget (lit "lakretz") results
       = Some (lakretz_downstream model vocab_path path (lakretz_tasks self)
                                  (device self) (print_results self))) /\
    (forall path,
       truthy (marvin_path self) = Some path ->
       Ok <$> oget (lit "marvin") results
       = Some (marvin_downstream model vocab_path path (marvin_tasks self)
                                 (device self) (print_results self))).
Proof.
  intros Hl Hm. unfold perform_tasks.
  destruct (truthy (lakretz_path self)) as [pl|];
    destruct (truthy (marvin_path self)) as [pm|].
  - destruct (Hl pl eq_refl) as [rl Hrl]. destruct (Hm pm eq_refl) as [rm Hrm].
    rewrite Hrl. simpl. rewrite Hrm. simpl. eexists. split_and!; [done|done| |].
    + intros ? [= <-]. by rewrite Hrl.
    + intros ? [= <-]. by rewrite Hrm.
  - destruct (Hl pl eq_refl) as [rl Hrl]. rewrite Hrl. simpl.
    eexists. split_and!; [done|done| |done].
    intros ? [= <-]. by rewrite Hrl.
  - destruct (Hm pm eq_refl) as [rm Hrm]. simpl. rewrite Hrm. simpl.
    eexists. split_and!; [done|done|done|].
    intros ? [= <-]. by rewrite Hrm.
  - simpl. eexists. by split_and!.
Qed.

(** X18. When the Lakretz task raises, [perform_tasks] raises the same
    exception: the Marvin task is not called and nothing about it is
    printed, whatever its path. *)
Theorem lakretz_failure_stops (self : DownstreamSuite) (model : LanguageModel)
    (vocab_path path : str) (e : exn) :
  truthy (lakretz_path self) = Some path ->
  lakretz_downstream model vocab_path path (lakretz_tasks self)
                     (device self) (print_results self) = Raise e ->
  (perform_tasks lakretz_downstream marvin_downstream self model vocab_path).2
  = Raise e /\
  (CallMarvin
     ∉ (perform_tasks lakretz_downstream marvin_downstream self model vocab_path).1) /\
  (Print ([10%N] ++ lit "--==MARVIN==--")
     ∉ (perform_tasks lakretz_downstream marvin_downstream self model vocab_path).1).
Proof.
  intros Hpath Hraise. unfold perform_tasks. rewrite Hpath, Hraise. simpl.
  split; [done|].
  destruct (print_results self); simpl; split; intros Hin;
    repeat (apply elem_of_cons in Hin as [Heq|Hin]; [discriminate Heq|]);
    by apply elem_of_nil in Hin.
Qed.

End facts.

Lemma perform_tasks_keys_witness :
  exists results,
    (perform_tasks Fixtures.task_ok Fixtures.task_ok Fixtures.lakretz_only tt
                   (lit "vocab.txt")).2 = Ok results /\
    results.*1
    = (match truthy (lakretz_path Fixtures.lakretz_only) with Some _ => [lit "lakretz"] | None => [] end)
      ++ (match truthy (marvin_path Fixtures.lakretz_only) with Some _ => [lit "marvin"] | None => [] end) /\
    (forall path,
       truthy (lakretz_path Fixtures.lakretz_only) = Some path ->
       Ok <$> oget (lit "lakretz") results
       = Some (Fixtures.task_ok tt (lit "vocab.txt") path
                 (lakretz_tasks Fixtures.lakretz_only)
                 (device Fixtures.lakretz_only)
                 (print_results Fixtures.lakretz_only))) /\
    (forall path,
       truthy (marvin_path Fixtures.lakretz_only) = Some path ->
       Ok <$> oget (lit "marvin") results
       = Some (Fixtures.task_ok tt (lit "vocab.txt") path
                 (marvin_tasks Fixtures.lakretz_only)
                 (device Fixtures.lakretz_only)
                 (print_results Fixtures.lakretz_only))).
Proof.
  apply (perform_tasks_keys Fixtures.task_ok Fixtures.task_ok Fixtures.lakretz_only
           tt (lit "vocab.txt")); intros path _; by eexists.
Defined.

Lemma lakretz_failure_stops_witness :
  (perform_tasks Fixtures.task_fails Fixtures.task_ok Fixtures.both_tasks tt
                 (lit "vocab.txt")).2 = Raise RuntimeError /\
  (CallMarvin
     ∉ (perform_tasks Fixtures.task_fails Fixtures.task_ok Fixtures.both_tasks
                      tt (lit "vocab.txt")).1) /\
  (Print ([10%N] ++ lit "--==MARVIN==--")
     ∉ (perform_tasks Fixtures.task_fails Fixtures.task_ok Fixtures.both_tasks tt
                      (lit "vocab.txt")).1).
Proof.
  apply (lakretz_failure_stops Fixtures.task_fails Fixtures.task_ok Fixtures.both_tasks
           tt (lit "vocab.txt") (lit "lakretz") RuntimeError); reflexivity.
Defined.

End SuiteFacts.

(** ** The documentation headers *)

Module UpdateHeadersFacts.
Import Py PyFacts UpdateHeaders.

Lemma split_on_go_nonempty sep cur x : split_on_go sep cur x <> [].
Proof.
  revert cur. induction x as [|ch x IH]; intros cur; simpl; [done|].
  destruct (ch =? sep)%N; [done|apply IH].
Qed.

(** Joining the fields of a split with the separator gives the string back. *)
Lemma join_split_on_go sep cur x :
  join [sep] (split_on_go sep cur x) = cur ++ x.
Proof.
  revert cur. induction x as [|ch x IH]; intros cur; simpl.
  - by rewrite app_nil_r.
  - destruct (N.eqb_spec ch sep) as [->|Hne].
    + pose proof (split_on_go_nonempty sep [] x) as Hne.
      specialize (IH []). destruct (split_on_go sep [] x) as [|y l]; [done|].
      simpl in *. by rewrite IH.
    + rewrite IH. by rewrite <- app_assoc.
Qed.

Lemma split_on_go_prefix sep cur pre rest :
  sep ∉ pre ->
  split_on_go sep cur (pre ++ sep :: rest) = (cur ++ pre) :: split_on_go sep [] rest.
Proof.
  revert cur. induction pre as [|ch pre IH]; intros cur Hsep; simpl.
  - by rewrite N.eqb_refl, app_nil_r.
  - apply not_elem_of_cons in Hsep as [Hne Hsep].
    destruct (N.eqb_spec ch sep) as [->|_]; [done|].
    rewrite IH by done. by rewrite <- app_assoc.
Qed.

Lemma slice_drop_last {A} (x y : list A) (hi : Z) :
  hi < 0 -> len y = - hi -> slice (x ++ y) None (Some hi) = x.
Proof.
  intros Hn Hy. rewrite slice_negative_stop by lia.
  unfold len in *. rewrite length_app.
  replace (Z.to_nat (Z.of_nat (length x + length y) + hi)) with (length x) by lia.
  by rewrite take_app_length.
Qed.

Lemma slice_tail {A} (x : A) (l : list A) : slice (x :: l) (Some 1) None = l.
Proof.
  unfold slice, adjust_index. simpl length.
  replace (Z.min 1 (Z.of_nat (S (length l)))) with 1 by lia.
  simpl. apply take_ge. lia.
Qed.

Section facts.
Context (upper capitalize : str -> str).

Lemma new_content_body_cases content acc line acc' :
  new_content_body upper capitalize content acc line = Ok acc' ->
  acc' = acc ++ [line] \/
  (contains (lit "automodule") line = true /\
   exists title,
     acc' = acc ++ [title ++ [10%N]; replicate (length title) 94%N ++ [10%N]; line]).
Proof.
  unfold new_content_body.
  destruct (contains (lit "automodule") line); [|intros [= <-]; by left].
  destruct (getlast (split_on 32 line)) as [last_word|]; simpl; [|done].
  destruct (getlast (split_on 46 last_word)) as [snake_name|]; simpl; [|done].
  destruct (list_getitem content 0) as [content0|]; simpl; [|done].
  destruct (_ || _); simpl; intros [= <-]; [|by left].
  right. split; [done|]. exists (capital_name upper capitalize snake_name).
  unfold len. rewrite Nat2Z.id. by rewrite <- app_assoc.
Qed.

Lemma new_content_loop content lines acc new :
  for_fold lines (new_content_body upper capitalize content) acc = Ok new ->
  exists tail, new = acc ++ tail /\ decorated lines tail.
Proof.
  revert acc. induction lines as [|line lines IH]; intros acc; simpl.
  - intros [= <-]. exists []. split; [by rewrite app_nil_r|constructor].
  - destruct (new_content_body upper capitalize content acc line) as [acc'|]
      eqn:Hbody; [|done].
    intros (tail & -> & Htail)%IH.
    apply new_content_body_cases in Hbody as [->|(Hauto & title & ->)].
    + exists (line :: tail). split; [by rewrite <- app_assoc|by constructor].
    + eexists. split; [by rewrite <- app_assoc|]. simpl. by constructor.
Qed.

Lemma edit_titles_cases content :
  (length content < 2)%nat /\ edit_titles content = Raise IndexError \/
  exists content1,
    edit_titles content = Ok content1 /\ length content1 = length content /\
    forall i, (2 <= i)%nat -> content1 !! i = content !! i.
Proof.
  unfold edit_titles, list_getitem.
  destruct content as [|line0 [|line1 content]].
  - left. split; [simpl; lia|done].
  - left. split; [simpl; lia|done].
  - right. eexists. split; [done|]. split; [done|].
    intros [|[|i]] Hi; (lia || done).
Qed.

Lemma del_slice_twice {A} (l : list A) :
  (8 <= length l)%nat ->
  del_slice (del_slice l 8 11) 8 17 = take 8 l ++ drop 20 l.
Proof.
  intros Hlen. unfold del_slice.
  rewrite take_app_le by (rewrite length_take; lia).
  rewrite take_take.
  rewrite drop_app_ge by (rewrite length_take; lia).
  rewrite length_take, drop_drop. do 3 f_equal; lia.
Qed.

Lemma drop_listings_cases content :
  (exists k, k ∈ [8; 11; 17; 20]%nat /\
     drop_listings content = Ok (take 8 content ++ drop k content)) \/
  drop_listings content = Raise IndexError.
Proof.
  unfold drop_listings, list_getitem.
  destruct (content !! 8%nat) as [line8|] eqn:H8; [|by right].
  pose proof (lookup_lt_Some _ _ _ H8) as Hlen.
  cbn [mbind res_bind].
  destruct (contains (lit "Submodules") line8).
  - destruct (del_slice content 8 11 !! 8%nat) as [line8'|] eqn:H8'; [|by right].
    left. cbn [mbind res_bind].
    destruct (contains (lit "Subpackages") line8').
    + exists 20%nat. split; [set_solver|]. by rewrite del_slice_twice by lia.
    + exists 11%nat. split; [set_solver|done].
  - rewrite H8. left. cbn [mbind res_bind].
    destruct (contains (lit "Subpackages") line8).
    + exists 17%nat. split; [set_solver|done].
    + exists 8%nat. split; [set_solver|]. by rewrite take_drop.
Qed.

(** X19. What the script writes back for a file.  The first two lines are
    edited; of the lines from line 8 on, the first 0, 3, 9 or 12 are
    deleted; and the result is these lines, in their order and all of them,
    with a title line and a line of as many carets as the title has
    characters inserted before some of the lines that contain
    "automodule". *)
Theorem rewrite_content_decorates (content new : list str) :
  rewrite_content upper capitalize content = Ok new ->
  exists content1 k,
    edit_titles content = Ok content1 /\
    length content1 = length content /\
    (forall i, (2 <= i)%nat -> content1 !! i = content !! i) /\
    k ∈ [8; 11; 17; 20]%nat /\
    decorated (take 8 content1 ++ drop k content1) new.
Proof.
  unfold rewrite_content.
  destruct (edit_titles_cases content) as [[_ ->]|(content1 & -> & Hlen & Hrest)];
    simpl; [done|].
  destruct (drop_listings_cases content1) as [(k & Hk & ->)| ->]; simpl; [|done].
  intros (tail & -> & Htail)%new_content_loop.
  by exists content1, k.
Qed.

(** X20. A file that is too short.  The script reads line 8 of the file
    without looking at its length: for a file of fewer than nine lines it
    raises [IndexError], and so it does for a file of nine to eleven lines
    whose line 8 contains "Submodules", since line 8 is read again after the
    three lines from it on are deleted. *)
Theorem short_file_raises (content : list str) :
  ((length content <= 8)%nat ->
   rewrite_content upper capitalize content = Raise IndexError) /\
  (forall line8,
     (9 <= length content <= 11)%nat -> content !! 8%nat = Some line8 ->
     contains (lit "Submodules") line8 = true ->
     rewrite_content upper capitalize content = Raise IndexError).
Proof.
  unfold rewrite_content. split.
  - intros Hlen.
    destruct (edit_titles_cases content) as [[_ ->]|(content1 & -> & Hlen1 & _)];
      simpl; [done|].
    unfold drop_listings, list_getitem.
    rewrite (lookup_ge_None_2 content1 8) by lia. done.
  - intros line8 Hlen H8 Hsub.
    destruct (edit_titles_cases content) as [[? _]|(content1 & -> & Hlen1 & Hrest)];
      simpl; [lia|].
    unfold drop_listings, list_getitem.
    rewrite Hrest, H8 by lia. cbn [mbind res_bind]. rewrite Hsub.
    rewrite (lookup_ge_None_2 (del_slice content1 8 11) 8); [done|].
    unfold del_slice. rewrite length_app, length_take, length_drop. lia.
Qed.

(** X21. The title line.  A first line that reads [pkg.name package],
    [pkg] being free of dots, becomes [name]: the leading package and the
    word "package" are removed.  A second line loses its last eight
    characters before the newline. *)
Theorem title_line (content : list str) (pkg name line1 tail : str) :
  content !! 0%nat = Some (pkg ++ [46%N] ++ name ++ lit " package" ++ [10%N]) ->
  46%N ∉ pkg ->
  content !! 1%nat = Some (line1 ++ tail) -> len tail = 9 ->
  exists content1,
    edit_titles content = Ok content1 /\
    content1 !! 0%nat = Some (name ++ [10%N]) /\
    content1 !! 1%nat = Some (line1 ++ [10%N]).
Proof.
  intros H0 Hpkg H1 Htail. unfold edit_titles, list_getitem.
  rewrite H0. cbn [mbind res_bind].
  destruct content as [|line0 [|line1' content]]; [done|done|].
  injection H0 as ->. injection H1 as ->.
  eexists. split; [reflexivity|].
  split; [|cbn [lookup list_lookup insert list_insert]; by rewrite slice_drop_last].
  cbn [lookup list_lookup insert list_insert]. do 2 f_equal.
  replace (pkg ++ [46%N] ++ name ++ lit " package" ++ [10%N])
    with ((pkg ++ 46%N :: name) ++ (lit " package" ++ [10%N]))
    by (by rewrite <- !app_assoc).
  rewrite slice_drop_last by done.
  unfold split_on. rewrite split_on_go_prefix by done.
  rewrite slice_tail. apply (join_split_on_go 46 []).
Qed.

End facts.

Lemma rewrite_content_decorates_witness :
  exists content1 k,
    edit_titles Fixtures.rst_file = Ok content1 /\
    length content1 = length Fixtures.rst_file /\
    (forall i, (2 <= i)%nat -> content1 !! i = Fixtures.rst_file !! i) /\
    k ∈ [8; 11; 17; 20]%nat /\
    decorated (take 8 content1 ++ drop k content1)
              (default [] (match rewrite_content id id Fixtures.rst_file with
                           | Ok new => Some new | Raise _ => None end)).
Proof.
  apply (rewrite_content_decorates id id Fixtures.rst_file). reflexivity.
Defined.

Lemma short_file_raises_witness :
  rewrite_content id id (take 8 Fixtures.rst_file) = Raise IndexError /\
  rewrite_content id id
    (take 8 Fixtures.rst_file ++ [Fixtures.line "Submodules"; Fixtures.line "----------"])
  = Raise IndexError.
Proof.
  pose proof (short_file_raises id id (take 8 Fixtures.rst_file)) as [Hshort _].
  pose proof (short_file_raises id id
                (take 8 Fixtures.rst_file
                   ++ [Fixtures.line "Submodules"; Fixtures.line "----------"]))
    as [_ Hsub].
  split.
  - apply Hshort. simpl. lia.
  - apply (Hsub (Fixtures.line "Submodules")); [simpl; lia|reflexivity|reflexivity].
Defined.

Lemma title_line_witness :
  exists content1,
    edit_titles Fixtures.rst_file = Ok content1 /\
    content1 !! 0%nat = Some (lit "activations" ++ [10%N]) /\
    content1 !! 1%nat = Some (lit "=====================" ++ [10%N]).
Proof.
  apply (title_line Fixtures.rst_file (lit "diagnnose") (lit "activations")
           (lit "=====================") (lit "========" ++ [10%N]));
    [reflexivity| |reflexivity|reflexivity].
  apply (proj1 (bool_decide_eq_true _)). vm_compute. reflexivity.
Defined.

(** The small rst file gets the title "Init States" before its automodule
    line. *)
Example rst_file_rewritten :
  rewrite_content (fun x => x)
    (fun x => match x with
              | ch :: x' => (if ((97 <=? ch) && (ch <=? 122))%N then (ch - 32)%N else ch) :: x'
              | [] => []
              end)
    Fixtures.rst_file
  = Ok (Fixtures.line
          <$> ["activations"; "====================="; "";
               "Submodules"; "----------"; "";
               "diagnnose.activations.init\_states module";
               "------------------------------------------"; "";
               "Init States"; "^^^^^^^^^^^";
               ".. automodule:: diagnnose.activations.init_states";
               "   :members:"]%string).
Proof. reflexivity. Qed.

End UpdateHeadersFacts.
